(** * Kirana register: lock manager, cache-aside helper, transaction
    workflow and report aggregator

    A shallow embedding of the coordination layer of the kirana-store
    backend (NestJS / TypeScript):

    - [src/core/services/distributed-lock.service.ts]  (DistributedLockService)
    - [src/core/services/cache.service.ts]             (CacheService)
    - [src/use-cases/transaction/services/transaction.service.ts]
                                                        (TransactionService)
    - [src/use-cases/transaction/controllers/transaction.controller.ts]

    Asynchronous methods are computations in a state-and-exception monad
    over a [World] that holds the Redis keyspace, the wall clock, the
    Mongo [transactions] collection, the schedule of transport faults and
    the trace of every interaction with a collaborator.  JavaScript
    numbers that carry money or exchange rates are IEEE-754 doubles
    ([PrimFloat.float]); counters, durations and time values are [Z]. *)

From Stdlib Require Import ZArith Lia.
From Stdlib Require Import Floats.PrimFloat Floats.SpecFloat Floats.FloatOps
  Floats.FloatAxioms.
From stdpp Require Import gmap strings list sorting pretty.

Set Warnings "-register-all".

Local Open Scope string_scope.
Local Open Scope list_scope.
Local Open Scope Z_scope.

(** ** JavaScript values *)

(** The values that travel through the cache: what [JSON.parse] can
    return and what a producer function can resolve to. *)
Inductive JsValue : Type :=
| JsUndefined
| JsNull
| JsBool (b : bool)
| JsNumber (x : float)
| JsString (s : string)
| JsObject (props : list (string * JsValue)).

(** ToBoolean: [undefined], [null], [false], [0], [-0], [NaN] and the
    empty string are falsy; every object is truthy. *)
Definition truthy (v : JsValue) : bool :=
  match v with
  | JsUndefined | JsNull => false
  | JsBool b => b
  | JsNumber x => negb (is_zero x || is_nan x)
  | JsString s => negb (String.eqb s EmptyString)
  | JsObject _ => true
  end.

(** ToBoolean on the [string | null] results of the Redis client. *)
Definition truthy_str (o : option string) : bool :=
  match o with
  | Some s => negb (String.eqb s EmptyString)
  | None => false
  end.

Fixpoint own_prop (k : string) (props : list (string * JsValue)) : JsValue :=
  match props with
  | [] => JsUndefined
  | (k', v) :: rest => if String.eqb k k' then v else own_prop k rest
  end.

(** The parts of the JavaScript runtime that are taken as given: the JSON
    codec ([None] is a thrown exception: a TypeError of [JSON.stringify],
    a SyntaxError of [JSON.parse]), the string case of ToNumber,
    [Date.parse] ([None] is NaN, an invalid date) and the offset of the
    host's time zone from UTC in milliseconds: [LocalTZA t true] is the
    offset in effect at the instant [t], [LocalTZA t false] the offset
    with which the local time [t] is read (the choice at a transition is
    the host's). *)
Class Runtime : Type := {
  JSON_stringify : JsValue -> option string;
  JSON_parse : string -> option JsValue;
  StringToNumber : string -> float;
  Date_parse : string -> option Z;
  LocalTZA : Z -> bool -> Z
}.

(** ToNumber; a plain object converts through "[object Object]" to NaN. *)
Definition ToNumber `{Runtime} (v : JsValue) : float :=
  match v with
  | JsUndefined => nan
  | JsNull => zero
  | JsBool b => if b then one else zero
  | JsNumber x => x
  | JsString s => StringToNumber s
  | JsObject _ => nan
  end.

(** ** Dates (ECMAScript time values) *)

Definition msPerDay : Z := 86400000.

Definition Day (t : Z) : Z := t / msPerDay.
Definition TimeWithinDay (t : Z) : Z := t mod msPerDay.

Definition DaysInYear (y : Z) : Z :=
  if negb (y mod 4 =? 0) then 365
  else if negb (y mod 100 =? 0) then 366
  else if negb (y mod 400 =? 0) then 365
  else 366.

Definition DayFromYear (y : Z) : Z :=
  365 * (y - 1970) + (y - 1969) / 4 - (y - 1901) / 100 + (y - 1601) / 400.

(** The largest [y] whose first day is not after day [d]: the mean year
    of 146097/400 days gives an estimate that is off by at most one. *)
Definition YearFromDay (d : Z) : Z :=
  let y := 1970 + d * 400 / 146097 in
  if DayFromYear (y + 1) <=? d then y + 1
  else if d <? DayFromYear y then y - 1
  else y.

Definition YearFromTime (t : Z) : Z := YearFromDay (Day t).
Definition InLeapYear (t : Z) : Z :=
  if DaysInYear (YearFromTime t) =? 366 then 1 else 0.
Definition DayWithinYear (t : Z) : Z := Day t - DayFromYear (YearFromTime t).

(** Number of days of the year before month [m] (0 = January). *)
Definition monthStart (m leap : Z) : Z :=
  if m =? 0 then 0
  else if m =? 1 then 31
  else if m =? 2 then 59 + leap
  else if m =? 3 then 90 + leap
  else if m =? 4 then 120 + leap
  else if m =? 5 then 151 + leap
  else if m =? 6 then 181 + leap
  else if m =? 7 then 212 + leap
  else if m =? 8 then 243 + leap
  else if m =? 9 then 273 + leap
  else if m =? 10 then 304 + leap
  else 334 + leap.

Definition MonthFromTime (t : Z) : Z :=
  let d := DayWithinYear t in
  let leap := InLeapYear t in
  if d <? 31 then 0
  else if d <? 59 + leap then 1
  else if d <? 90 + leap then 2
  else if d <? 120 + leap then 3
  else if d <? 151 + leap then 4
  else if d <? 181 + leap then 5
  else if d <? 212 + leap then 6
  else if d <? 243 + leap then 7
  else if d <? 273 + leap then 8
  else if d <? 304 + leap then 9
  else if d <? 334 + leap then 10
  else 11.

Definition DateFromTime (t : Z) : Z :=
  DayWithinYear t - monthStart (MonthFromTime t) (InLeapYear t) + 1.

(** 0 is Sunday. *)
Definition WeekDay (t : Z) : Z := (Day t + 4) mod 7.

(** The day number of the [date]-th day of month [month] of [year];
    months outside 0..11 carry into the year, dates outside the month
    carry into the neighbouring months. *)
Definition MakeDay (year month date : Z) : Z :=
  let ym := year + month / 12 in
  let mn := month mod 12 in
  DayFromYear ym + monthStart mn (if DaysInYear ym =? 366 then 1 else 0)
  + date - 1.

Definition MakeDate (day time : Z) : Z := day * msPerDay + time.

Definition TimeClip (t : Z) : option Z :=
  if Z.abs t <=? 8640000000000000 then Some t else None.

(** ** Exceptions *)

Inductive Exn : Type :=
| ConflictException (msg : string)
| ServiceUnavailableException (msg : string)
| TypeError (msg : string)
| SyntaxError
| RedisError (msg : string)
| AxiosError
| MongoError
| ValidationError (msg : string).

(** ** Domain records *)

Inductive TransactionType : Type := CREDIT | DEBIT.

(** The [Currency] enum is not part of the sources at hand; a currency is
    its code, which is also the key into the provider's rate table. *)
Definition Currency : Type := string.
Definition Currency_INR : Currency := "INR".

(** A [Date] is its time value: milliseconds since the epoch, or [None]
    for NaN (an invalid date). *)
Definition Date : Type := option Z.

Section DateMethods.
Context {rt : Runtime}.

Definition LocalTime (t : Z) : Z := t + LocalTZA t true.
Definition UTC (t : Z) : Z := t - LocalTZA t false.

(** [Date.prototype.getDate], [getMonth]: NaN on an invalid date. *)
Definition Date_getDate (d : Date) : option Z :=
  t ← d; Some (DateFromTime (LocalTime t)).

Definition Date_getMonth (d : Date) : option Z :=
  t ← d; Some (MonthFromTime (LocalTime t)).

(** [Date.prototype.setDate(date)], [setMonth(month)], giving the date
    object's new time value. *)
Definition Date_setDate (d : Date) (date : option Z) : Date :=
  t ← d; dt ← date;
  let lt := LocalTime t in
  TimeClip (UTC (MakeDate (MakeDay (YearFromTime lt) (MonthFromTime lt) dt)
                          (TimeWithinDay lt))).

Definition Date_setMonth (d : Date) (month : option Z) : Date :=
  t ← d; m ← month;
  let lt := LocalTime t in
  TimeClip (UTC (MakeDate (MakeDay (YearFromTime lt) m (DateFromTime lt))
                          (TimeWithinDay lt))).

End DateMethods.

Record Transaction : Type := {
  _id : string;
  storeId : string;
  amount : float;
  description : option string;
  type : TransactionType;
  currency : Currency;
  amountInINR : float;
  createdBy : string;
  createdAt : Z
}.

Record CreateTransactionDto : Type := {
  dto_amount : float;
  dto_description : option string;
  dto_type : TransactionType;
  dto_currency : Currency
}.

(** The request's user.  Ids are ObjectIds, written as their 24
    hexadecimal digits (here: any name).  [_id] is read as [user._id?]:
    it is [None] on a user object that carries no [_id], such as the one
    the JWT strategy builds, which names the id [id]. *)
Record IUser : Type := {
  user_id : option string;
  user_storeId : string
}.

(** ** The world *)

Record RedisEntry : Type := {
  value : string;
  expireAt : option Z
}.

Inductive RedisCommand : Type :=
| GET (key : string)
| SET (key val : string)
| SET_EX (key val : string) (seconds : Z)
| SET_PX_NX (key val : string) (ms : Z)
| EVAL_RELEASE (key token : string)
| EXISTS (key : string).

Inductive LogLevel : Type := debug | warn | error.

Inductive Event : Type :=
| Redis (c : RedisCommand)
| HttpGet
| MongoCreate (doc : Transaction)
| MongoAggregate
| SetTimeout (ms : Z)
| Log (level : LogLevel) (msg : string).

Record World : Type := {
  (** Redis keyspace; an entry whose [expireAt] has passed is dead. *)
  redis : gmap string RedisEntry;
  (** Wall clock, in milliseconds. *)
  now : Z;
  (** The [transactions] collection, oldest first. *)
  transactions : list Transaction;
  (** Interactions with collaborators, newest first. *)
  trace : list Event;
  (** Whether the next Redis commands fail in transport (head first;
      none fail once the schedule is used up). *)
  redis_faults : list bool;
  (** The same for the next Mongo operations. *)
  mongo_faults : list bool;
  (** What the exchange-rate endpoint answers at a given time: the
      [rates] member of the response body, or [None] when the call fails. *)
  fxRates : Z -> option JsValue;
  (** Source of random identifiers and how many have been drawn. *)
  entropy : nat -> string;
  drawn : nat
}.

(** ** Computations *)

Inductive Outcome (A : Type) : Type :=
| Return (a : A)
| Throw (e : Exn).
Arguments Return {A} a.
Arguments Throw {A} e.

Definition M (A : Type) : Type := World -> Outcome A * World.

Definition ret {A} (a : A) : M A := fun w => (Return a, w).
Definition throw {A} (e : Exn) : M A := fun w => (Throw e, w).

Definition bind {A B} (m : M A) (k : A -> M B) : M B :=
  fun w =>
    match m w with
    | (Return a, w') => k a w'
    | (Throw e, w') => (Throw e, w')
    end.

Notation "'let*' x ':=' m 'in' k" := (bind m (fun x => k))
  (at level 10, x name, m at level 100, k at level 200).
Notation "m ';;' k" := (bind m (fun _ => k))
  (at level 100, k at level 200, right associativity).

(** [try { body } catch (error) { handler error }] *)
Definition try_catch {A} (body : M A) (handler : Exn -> M A) : M A :=
  fun w =>
    match body w with
    | (Return a, w') => (Return a, w')
    | (Throw e, w') => handler e w'
    end.

(** [try { const a = await awaited; return returned(a) } finally { cleanup }]
    in an async function, where [returned a] is a promise that the [try]
    block returns without awaiting it.  The operation behind the promise
    is started by the call, the cleanup runs next, and the promise settles
    after it, whatever the cleanup does; the function completes as the
    cleanup if that throws and as the promise otherwise. *)
Definition try_return_finally {A B C} (awaited : M A) (returned : A -> M B)
    (cleanup : M C) : M B :=
  fun w =>
    match awaited w with
    | (Return a, w1) =>
        match cleanup w1 with
        | (Return _, w2) => returned a w2
        | (Throw e, w2) => (Throw e, snd (returned a w2))
        end
    | (Throw e, w1) =>
        match cleanup w1 with
        | (Return _, w2) => (Throw e, w2)
        | (Throw e', w2) => (Throw e', w2)
        end
    end.

Definition set_redis (f : gmap string RedisEntry -> gmap string RedisEntry)
    (w : World) : World :=
  {| redis := f (redis w); now := now w; transactions := transactions w;
     trace := trace w; redis_faults := redis_faults w;
     mongo_faults := mongo_faults w; fxRates := fxRates w;
     entropy := entropy w; drawn := drawn w |}.

Definition set_now (t : Z) (w : World) : World :=
  {| redis := redis w; now := t; transactions := transactions w;
     trace := trace w; redis_faults := redis_faults w;
     mongo_faults := mongo_faults w; fxRates := fxRates w;
     entropy := entropy w; drawn := drawn w |}.

Definition set_transactions (l : list Transaction) (w : World) : World :=
  {| redis := redis w; now := now w; transactions := l;
     trace := trace w; redis_faults := redis_faults w;
     mongo_faults := mongo_faults w; fxRates := fxRates w;
     entropy := entropy w; drawn := drawn w |}.

Definition set_trace (l : list Event) (w : World) : World :=
  {| redis := redis w; now := now w; transactions := transactions w;
     trace := l; redis_faults := redis_faults w;
     mongo_faults := mongo_faults w; fxRates := fxRates w;
     entropy := entropy w; drawn := drawn w |}.

Definition set_redis_faults (l : list bool) (w : World) : World :=
  {| redis := redis w; now := now w; transactions := transactions w;
     trace := trace w; redis_faults := l;
     mongo_faults := mongo_faults w; fxRates := fxRates w;
     entropy := entropy w; drawn := drawn w |}.

Definition set_mongo_faults (l : list bool) (w : World) : World :=
  {| redis := redis w; now := now w; transactions := transactions w;
     trace := trace w; redis_faults := redis_faults w;
     mongo_faults := l; fxRates := fxRates w;
     entropy := entropy w; drawn := drawn w |}.

Definition set_drawn (n : nat) (w : World) : World :=
  {| redis := redis w; now := now w; transactions := transactions w;
     trace := trace w; redis_faults := redis_faults w;
     mongo_faults := mongo_faults w; fxRates := fxRates w;
     entropy := entropy w; drawn := n |}.

Definition emit (e : Event) : M unit :=
  fun w => (Return tt, set_trace (e :: trace w) w).

Definition logger (level : LogLevel) (msg : string) : M unit :=
  emit (Log level msg).

(** [await new Promise((resolve) => setTimeout(resolve, ms))] *)
Definition setTimeout (ms : Z) : M unit :=
  emit (SetTimeout ms);;
  fun w => (Return tt, set_now (now w + ms) w).

(** [randomUUID()] from node:crypto, and the generator of ObjectIds. *)
Definition randomUUID : M string :=
  fun w => (Return (entropy w (drawn w)), set_drawn (S (drawn w)) w).

(** [new mongoose.Types.ObjectId(id)]: the id given, or a freshly
    generated one when the argument is [undefined]. *)
Definition new_ObjectId (id : option string) : M string :=
  match id with
  | Some hex => ret hex
  | None => randomUUID
  end.

(** ** The Redis client (ioredis) *)

Definition expired (t : Z) (e : RedisEntry) : bool :=
  match expireAt e with
  | Some at_ => at_ <=? t
  | None => false
  end.

(** The entry the server sees under [k] at time [t]. *)
Definition live (t : Z) (db : gmap string RedisEntry) (k : string)
    : option RedisEntry :=
  match db !! k with
  | Some e => if expired t e then None else Some e
  | None => None
  end.

(** Sends a command: it is recorded, then either lost in transport (it
    never reaches the server and the call rejects) or executed by the
    server. *)
Definition redis_send {A} (c : RedisCommand) (run : M A) : M A :=
  emit (Redis c);;
  fun w =>
    let w' := set_redis_faults (tail (redis_faults w)) w in
    if decide (head (redis_faults w) = Some true)
    then (Throw (RedisError "Connection is closed."), w')
    else run w'.

(** [redis.get(key)] *)
Definition redis_get (key : string) : M (option string) :=
  redis_send (GET key)
    (fun w => (Return (value <$> live (now w) (redis w) key), w)).

(** [redis.set(key, val)] *)
Definition redis_set (key val : string) : M (option string) :=
  redis_send (SET key val)
    (fun w => (Return (Some "OK"),
               set_redis <[key := {| value := val; expireAt := None |}]> w)).

(** [redis.set(key, val, 'EX', seconds)] *)
Definition redis_set_ex (key val : string) (seconds : Z) : M (option string) :=
  redis_send (SET_EX key val seconds)
    (fun w =>
       if seconds <=? 0
       then (Throw (RedisError "ERR invalid expire time in 'set' command"), w)
       else (Return (Some "OK"),
             set_redis <[key := {| value := val;
                                   expireAt := Some (now w + 1000 * seconds) |}]> w)).

(** [redis.set(key, val, 'PX', ms, 'NX')]: set only if the key is absent;
    the reply is ['OK'] or [null]. *)
Definition redis_set_px_nx (key val : string) (ms : Z) : M (option string) :=
  redis_send (SET_PX_NX key val ms)
    (fun w =>
       if ms <=? 0
       then (Throw (RedisError "ERR invalid expire time in 'set' command"), w)
       else match live (now w) (redis w) key with
            | Some _ => (Return None, w)
            | None =>
                (Return (Some "OK"),
                 set_redis <[key := {| value := val;
                                       expireAt := Some (now w + ms) |}]> w)
            end).

(** [redis.eval(script, 1, key, token)] for the release script
<<
      if redis.call('get', KEYS[1]) == ARGV[1] then
        return redis.call('del', KEYS[1])
      else
        return 0
      end
>>
    executed atomically by the server. *)
Definition redis_eval_release (key token : string) : M Z :=
  redis_send (EVAL_RELEASE key token)
    (fun w =>
       match live (now w) (redis w) key with
       | Some e =>
           if String.eqb (value e) token
           then (Return 1, set_redis (delete key) w)
           else (Return 0, w)
       | None => (Return 0, w)
       end).

(** [redis.exists(key)] *)
Definition redis_exists (key : string) : M Z :=
  redis_send (EXISTS key)
    (fun w => (Return (match live (now w) (redis w) key with
                       | Some _ => 1
                       | None => 0
                       end), w)).

(** ** [src/core/constants/cache.key.ts] *)

Definition REDIX_PREFIX : string := "kirana-register:".

Definition CURRENCY_RATES_key : string := REDIX_PREFIX +:+ "currency-rates".
Definition CURRENCY_RATES_expiry : Z := 3600.

Definition LOCK_key (key : string) : string := REDIX_PREFIX +:+ "lock:" +:+ key.
Definition LOCK_expiry : Z := 10000.

(** ** DistributedLockService *)

Module DistributedLockService.

Definition DEFAULT_RETRY_COUNT : Z := 3.
Definition DEFAULT_RETRY_DELAY : Z := 200.

(** One turn of the [while] loop of [acquireLock]: [Some v] is
    [return v], [None] falls through to the next turn. *)
Definition acquireLock_turn (key lockKey lockValue : string) (ttl : Z)
    : M (option string) :=
  try_catch
    (let* acquired := redis_set_px_nx lockKey lockValue ttl in
     if decide (acquired = Some "OK")
     then logger debug ("Lock acquired for key: " +:+ key);;
          ret (Some lockValue)
     else setTimeout DEFAULT_RETRY_DELAY;;
          ret None)
    (fun e =>
       logger error ("Failed to acquire lock for key " +:+ key +:+ ":");;
       throw e).

(** [while (attempts < retryCount)], with [left] the number of turns
    that remain: [attempts] starts at 0 and grows by one on each turn
    that neither returns nor throws. *)
Fixpoint acquireLock_while (key lockKey lockValue : string) (ttl : Z)
    (left : nat) : M (option string) :=
  match left with
  | O => ret None
  | S left' =>
      let* r := acquireLock_turn key lockKey lockValue ttl in
      match r with
      | Some v => ret (Some v)
      | None => acquireLock_while key lockKey lockValue ttl left'
      end
  end.

(** [ttl] and [retryCount] are [None] when the caller leaves them out. *)
Definition acquireLock (key : string) (ttl : option Z) (retryCount : option Z)
    : M (option string) :=
  let ttl := default LOCK_expiry ttl in
  let retryCount := default DEFAULT_RETRY_COUNT retryCount in
  let lockKey := LOCK_key key in
  let* lockValue := randomUUID in
  let* r := acquireLock_while key lockKey lockValue ttl (Z.to_nat retryCount) in
  match r with
  | Some v => ret (Some v)
  | None =>
      logger warn ("Failed to acquire lock for key " +:+ key +:+ " after "
                   +:+ pretty retryCount +:+ " attempts");;
      ret None
  end.

Definition releaseLock (key lockValue : string) : M bool :=
  try_catch
    (let* result := redis_eval_release (LOCK_key key) lockValue in
     let released := result =? 1 in
     (if released
      then logger debug ("Lock released for key: " +:+ key)
      else ret tt);;
     ret released)
    (fun e =>
       logger error ("Failed to release lock for key " +:+ key +:+ ":");;
       throw e).

Definition isLocked (key : string) : M bool :=
  try_catch
    (let* exists_ := redis_exists (LOCK_key key) in
     ret (exists_ =? 1))
    (fun e =>
       logger error ("Failed to check lock status for key " +:+ key +:+ ":");;
       throw e).

End DistributedLockService.

(** ** CacheService *)

Module CacheService.
Section WithRuntime.
Context {rt : Runtime}.

Definition get (key : string) : M JsValue :=
  try_catch
    (let* value := redis_get key in
     match value with
     | Some text =>
         if truthy_str value
         then match JSON_parse text with
              | Some v => ret v
              | None => throw SyntaxError
              end
         else ret JsNull
     | None => ret JsNull
     end)
    (fun e =>
       logger error ("Error getting cache key " +:+ key +:+ ":");;
       ret JsNull).

Definition stringify (value : JsValue) : M string :=
  match JSON_stringify value with
  | Some text => ret text
  | None => throw (TypeError "Converting circular structure to JSON")
  end.

(** [expiry?: number] is [None] when the argument is left out. *)
Definition set (key : string) (value : JsValue) (expiry : option Z) : M unit :=
  try_catch
    (let* text := stringify value in
     match expiry with
     | Some seconds =>
         if seconds =? 0
         then redis_set key text;; ret tt
         else redis_set_ex key text seconds;; ret tt
     | None => redis_set key text;; ret tt
     end)
    (fun e =>
       logger error ("Error setting cache key " +:+ key +:+ ":");;
       ret tt).

Definition cached (key : string) (expiry : Z) (func : M JsValue) : M JsValue :=
  let* value := get key in
  if truthy value
  then ret value
  else
    let* result := func in
    if negb (truthy result)
    then ret JsNull
    else set key result (Some expiry);;
         ret result.

End WithRuntime.
End CacheService.

(** ** The persistence collaborator (Mongoose model of [Transaction]) *)

Record TransactionData : Type := {
  data_amount : float;
  data_description : option string;
  data_type : TransactionType;
  data_currency : Currency;
  data_storeId : string;
  data_createdBy : string;
  data_amountInINR : float
}.

(** Sends an operation to the database: recorded, then lost in transport
    or rejected, or executed. *)
Definition mongo_send {A} (e : Event) (run : M A) : M A :=
  emit e;;
  fun w =>
    let w' := set_mongo_faults (tail (mongo_faults w)) w in
    if decide (head (mongo_faults w) = Some true)
    then (Throw MongoError, w')
    else run w'.

Module TransactionRepository.

(** What the casts of the schema accept: the paths [amount] and
    [amountInINR] are of type [Number], whose cast refuses NaN and
    nothing else among the numbers; [type] and [currency] are members of
    their enums, the ids are ObjectIds and [description] is optional. *)
Definition castable (data : TransactionData) : bool :=
  negb (is_nan (data_amount data)) && negb (is_nan (data_amountInINR data)).

(** [create(data)], through [Model.create]: the document gets a fresh
    [_id], is validated against the schema - a document that fails is
    refused with a ValidationError and nothing is sent - and is inserted
    with the current time as [createdAt], by the schema's [timestamps]
    option. *)
Definition create (data : TransactionData) : M Transaction :=
  let* oid := randomUUID in
  if castable data
  then
    fun w =>
      let doc := {| _id := oid;
                    storeId := data_storeId data;
                    amount := data_amount data;
                    description := data_description data;
                    type := data_type data;
                    currency := data_currency data;
                    amountInINR := data_amountInINR data;
                    createdBy := data_createdBy data;
                    createdAt := now w |} in
      mongo_send (MongoCreate doc)
        (fun w' => (Return doc, set_transactions (transactions w' ++ [doc]) w')) w
  else throw (ValidationError "Transaction validation failed").

End TransactionRepository.

(** ** TransactionService: creating a transaction *)

Module TransactionService.
Section WithRuntime.
Context {rt : Runtime}.

(** [axios.get(this.configService.get('fxRates.api'))] followed by
    [response.data.rates]. *)
Definition axios_get_rates : M JsValue :=
  emit HttpGet;;
  fun w =>
    match fxRates w (now w) with
    | Some rates => (Return rates, w)
    | None => (Throw AxiosError, w)
    end.

Definition getCurrencyRates : M JsValue :=
  CacheService.cached CURRENCY_RATES_key CURRENCY_RATES_expiry
    (try_catch
       axios_get_rates
       (fun e =>
          logger error "Error fetching currency rates:";;
          throw (ServiceUnavailableException "Currency service unavailable"))).

(** Property read [o[k]]: a TypeError on [null] and [undefined], the own
    property of an object, [undefined] on the other primitives. *)
Definition member (o : JsValue) (k : string) : M JsValue :=
  match o with
  | JsUndefined | JsNull =>
      throw (TypeError ("Cannot read properties of null (reading '"
                        +:+ k +:+ "')"))
  | JsObject props => ret (own_prop k props)
  | _ => ret JsUndefined
  end.

Definition convertToINR (amount : float) (currency : Currency) : M float :=
  if String.eqb currency Currency_INR then ret amount
  else
    let* rates := getCurrencyRates in
    let* inrRate := member rates "INR" in
    let* currencyRate := member rates currency in
    ret ((amount / ToNumber currencyRate) * ToNumber inrRate)%float.

(** The [try] block awaits the conversion and returns the promise of
    [transactionRepository.create] as it is. *)
Definition createTransaction (user : IUser) (dto : CreateTransactionDto)
    : M Transaction :=
  let lockKey := "transaction:" +:+ user_storeId user in
  let* lockValue := DistributedLockService.acquireLock lockKey None None in
  match lockValue with
  | Some token =>
      if negb (truthy_str lockValue)
      then throw (ConflictException "A transaction is already in progress")
      else
        try_return_finally
          (convertToINR (dto_amount dto) (dto_currency dto))
          (fun amountInINR =>
             let* createdBy := new_ObjectId (user_id user) in
             TransactionRepository.create
               {| data_amount := dto_amount dto;
                  data_description := dto_description dto;
                  data_type := dto_type dto;
                  data_currency := dto_currency dto;
                  data_storeId := user_storeId user;
                  data_createdBy := createdBy;
                  data_amountInINR := amountInINR |})
          (DistributedLockService.releaseLock lockKey token)
  | None => throw (ConflictException "A transaction is already in progress")
  end.

End WithRuntime.
End TransactionService.

(** ** Aggregation stages (MongoDB) *)

(** A pipeline is a function from the collection to the result rows;
    each stage below is the meaning of one stage document. *)

(** [{ $match: ... }] keeps the documents that satisfy the query. *)
Definition stage_match {A} (query : A -> bool) (docs : list A) : list A :=
  List.filter query docs.

(** [{ $group: { _id: key, ...accumulators } }] partitions the input by
    the value of the [_id] expression and folds the accumulators over each
    part in input order.  The server leaves the order of the groups open;
    here they appear in the order in which their keys are first met. *)
Fixpoint group_insert {A K} `{EqDecision K} (k : K) (a : A)
    (groups : list (K * list A)) : list (K * list A) :=
  match groups with
  | [] => [(k, [a])]
  | (k', members) :: rest =>
      if decide (k = k')
      then (k', members ++ [a]) :: rest
      else (k', members) :: group_insert k a rest
  end.

Definition group_by {A K} `{EqDecision K} (key : A -> K) (docs : list A)
    : list (K * list A) :=
  fold_left (fun groups d => group_insert (key d) d groups) docs [].

Definition stage_group {A K B} `{EqDecision K} (key : A -> K)
    (accumulate : K -> list A -> B) (docs : list A) : list B :=
  map (fun g => accumulate (fst g) (snd g)) (group_by key docs).

(** [{ $sort: { field: -1 } }] on an integer field. *)
Definition desc_by {A} (field : A -> Z) : relation A :=
  fun a b => field b <= field a.

#[global] Instance desc_by_dec {A} (field : A -> Z) (a b : A)
  : Decision (desc_by field a b).
Proof. unfold desc_by. apply _. Defined.

Definition stage_sort_desc {A} (field : A -> Z) (docs : list A) : list A :=
  merge_sort (desc_by field) docs.

(** [{ $sum: expr }] over doubles and [{ $sum: 1 }]. *)
Definition sum_of {A} (expr : A -> float) (docs : list A) : float :=
  fold_left (fun acc d => (acc + expr d)%float) docs zero.

Definition count_of {A} (docs : list A) : Z := Z.of_nat (length docs).

(** The date operators work in UTC; [$dayOfWeek] runs from 1 (Sunday) to
    7 (Saturday) and [$month] from 1 to 12. *)
Inductive GroupBy : Type := op_dayOfWeek | op_month | op_year.

Definition date_operator (groupBy : GroupBy) (t : Z) : Z :=
  match groupBy with
  | op_dayOfWeek => WeekDay t + 1
  | op_month => MonthFromTime t + 1
  | op_year => YearFromTime t
  end.

(** The driver writes a [Date] as its time value and an invalid one as 0. *)
Definition bson_date (d : Date) : Z := default 0 d.

(** An integer as a JavaScript number. *)
Fixpoint float_of_pos (p : positive) : float :=
  match p with
  | xH => one
  | xO q => (two * float_of_pos q)%float
  | xI q => (two * float_of_pos q + one)%float
  end.

Definition float_of_Z (z : Z) : float :=
  match z with
  | Z0 => zero
  | Zpos p => float_of_pos p
  | Zneg p => (- float_of_pos p)%float
  end.

#[global] Instance TransactionType_eq_dec : EqDecision TransactionType.
Proof. solve_decision. Defined.

(** ** TransactionService: reports *)

Inductive DurationType : Type := week | month.

(** Rows of the first [$group] stage, keyed by period and type. *)
Record PeriodTypeTotal : Type := {
  pt_id : Z * TransactionType;
  pt_totalAmount : float;
  pt_count : Z
}.

(** Elements pushed by the second [$group] stage. *)
Record TypeTotal : Type := {
  tt_type : TransactionType;
  tt_totalAmount : float;
  tt_count : Z
}.

Record Bucket : Type := {
  bucket_id : Z;
  bucket_transactions : list TypeTotal
}.

Record Report : Type := {
  startDate : Date;
  endDate : Date;
  report_transactions : list Bucket;
  summary : JsValue
}.

Module Reports.
Section WithRuntime.
Context {rt : Runtime}.

(** [TransactionRepository.aggregate(pipeline)] *)
Definition aggregate {R} (pipeline : list Transaction -> list R) : M (list R) :=
  mongo_send MongoAggregate
    (fun w => (Return (pipeline (transactions w)), w)).

(** The query shared by both pipelines:
    [{ storeId: ObjectId(storeId), createdAt: { $gte: startDate, $lt: endDate } }] *)
Definition report_query (storeId_ : string) (startDate_ endDate_ : Date)
    (d : Transaction) : bool :=
  String.eqb (storeId d) storeId_
  && (bson_date startDate_ <=? createdAt d)
  && (createdAt d <? bson_date endDate_).

Definition report_pipeline (storeId_ : string) (startDate_ endDate_ : Date)
    (groupBy : GroupBy) (collection : list Transaction) : list Bucket :=
  let matched := stage_match (report_query storeId_ startDate_ endDate_) collection in
  let totals :=
    stage_group
      (fun d => (date_operator groupBy (createdAt d), type d))
      (fun k ds => {| pt_id := k;
                      pt_totalAmount := sum_of amountInINR ds;
                      pt_count := count_of ds |})
      matched in
  let buckets :=
    stage_group
      (fun r => fst (pt_id r))
      (fun k rs => {| bucket_id := k;
                      bucket_transactions :=
                        map (fun r => {| tt_type := snd (pt_id r);
                                         tt_totalAmount := pt_totalAmount r;
                                         tt_count := pt_count r |}) rs |})
      totals in
  stage_sort_desc bucket_id buckets.

(** The document that the [$group] stage of [calculateSummary] builds
    from the matched transactions: [_id: null] and the three accumulators
    the stage names. *)
Definition summary_row (ds : list Transaction) : JsValue :=
  JsObject
    [("_id", JsNull);
     ("totalCredit",
      JsNumber (sum_of (fun d => if decide (type d = CREDIT)
                                 then amountInINR d else zero) ds));
     ("totalDebit",
      JsNumber (sum_of (fun d => if decide (type d = DEBIT)
                                 then amountInINR d else zero) ds));
     ("transactionCount", JsNumber (float_of_Z (count_of ds)))].

Definition summary_pipeline (storeId_ : string) (startDate_ endDate_ : Date)
    (collection : list Transaction) : list JsValue :=
  let matched := stage_match (report_query storeId_ startDate_ endDate_) collection in
  stage_group (fun _ => tt) (fun _ ds => summary_row ds) matched.

(** The object literal on the right of [summary || { ... }]. *)
Definition summary_fallback : JsValue :=
  JsObject [("totalCredit", JsNumber zero);
            ("totalDebit", JsNumber zero);
            ("transactionCount", JsNumber zero);
            ("netFlow", JsNumber zero)].

(** [const [summary] = await aggregate(pipeline); return summary || {...}] *)
Definition calculateSummary (storeId_ : string) (startDate_ endDate_ : Date)
    : M JsValue :=
  let* rows := aggregate (summary_pipeline storeId_ startDate_ endDate_) in
  match rows with
  | summary_ :: _ => ret (if truthy summary_ then summary_ else summary_fallback)
  | [] => ret summary_fallback
  end.

(** [groupBy] is [None] when the caller leaves the argument out. *)
Definition generateReport (storeId_ : string) (durationType : DurationType)
    (startDate_ : Date) (groupBy : option GroupBy) : M Report :=
  let groupBy := default op_dayOfWeek groupBy in
  let endDate_ :=
    match durationType with
    | week => Date_setDate startDate_ ((fun d => d + 7) <$> Date_getDate startDate_)
    | month => Date_setMonth startDate_ ((fun m => m + 1) <$> Date_getMonth startDate_)
    end in
  let* results := aggregate (report_pipeline storeId_ startDate_ endDate_ groupBy) in
  let* summary_ := calculateSummary storeId_ startDate_ endDate_ in
  ret {| startDate := startDate_;
         endDate := endDate_;
         report_transactions := results;
         summary := summary_ |}.

End WithRuntime.
End Reports.

(** ** TransactionController *)

Module TransactionController.
Section WithRuntime.
Context {rt : Runtime}.

(** [date ? new Date(date) : new Date()] *)
Definition request_date (date : option string) : M Date :=
  if truthy_str date
  then ret (d ← date; t ← Date_parse d; TimeClip t)
  else fun w => (Return (TimeClip (now w)), w).

Definition getWeeklyReport (user : IUser) (date : option string) : M Report :=
  let* startDate_ := request_date date in
  Reports.generateReport (user_storeId user) week startDate_ None.

Definition getMonthlyReport (user : IUser) (date : option string) : M Report :=
  let* startDate_ := request_date date in
  Reports.generateReport (user_storeId user) month startDate_ None.

Definition createTransaction (user : IUser) (dto : CreateTransactionDto)
    : M Transaction :=
  TransactionService.createTransaction user dto.

End WithRuntime.
End TransactionController.

(** * Vocabulary of the statements *)

(** ** Worlds *)

(** The value of a normal completion. *)
Definition returned {A} (o : Outcome A) : option A :=
  match o with
  | Return a => Some a
  | Throw _ => None
  end.

(** The world once a Redis command has left without a transport fault. *)
Definition sent (c : RedisCommand) (w : World) : World :=
  set_redis_faults (tail (redis_faults w)) (set_trace (Redis c :: trace w) w).

Definition logged (level : LogLevel) (msg : string) (w : World) : World :=
  set_trace (Log level msg :: trace w) w.

(** No transport fault among the next [n] operations of a schedule. *)
Definition quiet (n : nat) (faults : list bool) : Prop :=
  Forall (fun b => b = false) (take n faults).

(** ** Events *)

Definition is_attempt (e : Event) : bool :=
  match e with
  | Redis (SET_PX_NX _ _ _) => true
  | _ => false
  end.

Definition is_eval (e : Event) : bool :=
  match e with
  | Redis (EVAL_RELEASE _ _) => true
  | _ => false
  end.

Definition is_create (e : Event) : bool :=
  match e with
  | MongoCreate _ => true
  | _ => false
  end.

Definition not_eval (e : Event) : bool := negb (is_eval e).
Definition not_create (e : Event) : bool := negb (is_create e).

(** What the lock manager may add to the trace while acquiring. *)
Definition lock_event (e : Event) : bool :=
  match e with
  | Redis (SET_PX_NX _ _ _) | Log _ _ | SetTimeout _ => true
  | _ => false
  end.

(** What the cache-aside helper and the rate lookup may add. *)
Definition cache_event (e : Event) : bool :=
  match e with
  | Redis (GET _) | Redis (SET _ _) | Redis (SET_EX _ _ _) | Log _ _ | HttpGet => true
  | _ => false
  end.

(** What [j] failed attempts leave in the trace, newest first: each
    attempt is followed by a wait of 200 ms. *)
Fixpoint backoff_trace (c : RedisCommand) (j : nat) : list Event :=
  match j with
  | O => []
  | S j' => SetTimeout 200 :: Redis c :: backoff_trace c j'
  end.

(** The lock on [key] is live when attempt number [i] (from 0) is made,
    [200 * i] ms after the call. *)
Definition held_at (key : string) (w : World) (i : nat) : Prop :=
  is_Some (live (now w + 200 * Z.of_nat i) (redis w) (LOCK_key key)).

Definition warn_exhausted (key : string) (retryCount : Z) : Event :=
  Log warn ("Failed to acquire lock for key " +:+ key +:+ " after "
            +:+ pretty retryCount +:+ " attempts").

Definition lockKey_of (user : IUser) : string :=
  "transaction:" +:+ user_storeId user.

(** ** Frames *)

(** [steady ok w w']: from [w] to [w'] the collection is untouched and
    only events accepted by [ok] were added to the trace. *)
Definition steady (ok : Event -> bool) (w w' : World) : Prop :=
  (exists new, trace w' = new ++ trace w /\ forallb ok new = true)
  /\ transactions w' = transactions w.

Definition keeps {A} (ok : Event -> bool) (m : M A) : Prop :=
  forall w, steady ok w (snd (m w)).

(** ** Grouping *)

Fixpoint add_key {K} `{EqDecision K} (k : K) (ks : list K) : list K :=
  match ks with
  | [] => [k]
  | k' :: rest => if decide (k = k') then ks else k' :: add_key k rest
  end.

(** The distinct keys of [docs], in the order in which they are first met. *)
Definition first_keys {A K} `{EqDecision K} (key : A -> K) (docs : list A)
    : list K :=
  fold_left (fun ks d => add_key (key d) ks) docs [].

Definition has_key {A K} `{EqDecision K} (key : A -> K) (k : K) (d : A) : bool :=
  bool_decide (key d = k).

(** The key of the first [$group] stage of a report. *)
Definition period_type (groupBy : GroupBy) (d : Transaction)
    : Z * TransactionType :=
  (date_operator groupBy (createdAt d), type d).

(** What the buckets of a report say about the matched transactions,
    grouped by [group]. *)
Definition buckets_describe (group : GroupBy) (matched : list Transaction)
    (buckets : list Bucket) : Prop :=
  StronglySorted (desc_by bucket_id) buckets
  /\ List.NoDup (map bucket_id buckets)
  /\ (forall b, In b buckets ->
        bucket_transactions b <> []
        /\ List.NoDup (map tt_type (bucket_transactions b))
        /\ forall e, In e (bucket_transactions b) ->
             let members :=
               List.filter (has_key (period_type group) (bucket_id b, tt_type e))
                 matched in
             members <> []
             /\ tt_count e = Z.of_nat (length members)
             /\ tt_totalAmount e = sum_of amountInINR members)
  /\ (forall d, In d matched ->
        exists b e, In b buckets /\ In e (bucket_transactions b)
                    /\ bucket_id b = date_operator group (createdAt d)
                    /\ tt_type e = type d).


(** Property read on a value that is known not to be [null]. *)
Definition field (o : JsValue) (k : string) : JsValue :=
  match o with
  | JsObject props => own_prop k props
  | _ => JsUndefined
  end.

(** The world once a Mongo operation has left without a fault. *)
Definition mongo_sent (e : Event) (w : World) : World :=
  set_mongo_faults (tail (mongo_faults w)) (set_trace (e :: trace w) w).

(** ** Worlds after a lock operation *)

(** The world right after [acquireLock] has taken a free lock at its
    first attempt: a token drawn, the command sent, the entry stored with
    its expiry, the debug line logged. *)
Definition acquired (key : string) (ttl : Z) (w : World) : World :=
  logged debug ("Lock acquired for key: " +:+ key)
    (set_redis <[LOCK_key key := {| value := entropy w (drawn w);
                                    expireAt := Some (now w + ttl) |}]>
       (sent (SET_PX_NX (LOCK_key key) (entropy w (drawn w)) ttl)
          (set_drawn (S (drawn w)) w))).

(** The world right after [releaseLock] has deleted the lock. *)
Definition released (key token : string) (w : World) : World :=
  logged debug ("Lock released for key: " +:+ key)
    (set_redis (delete (LOCK_key key))
       (sent (EVAL_RELEASE (LOCK_key key) token) w)).

(** ** Confinement *)

(** [confined key w w']: from [w] to [w'] nothing changed but the trace,
    the schedule of Redis faults and the Redis entry under [key]. *)
Definition confined (key : string) (w w' : World) : Prop :=
  now w' = now w
  /\ transactions w' = transactions w
  /\ mongo_faults w' = mongo_faults w
  /\ fxRates w' = fxRates w
  /\ entropy w' = entropy w
  /\ drawn w' = drawn w
  /\ forall k, k ≠ key -> redis w' !! k = redis w !! k.

Definition touches_only {A} (key : string) (m : M A) : Prop :=
  forall w, confined key w (snd (m w)).

(** ** Documents *)

(** The object literal that [createTransaction] hands to the repository. *)
Definition data_of (user : IUser) (dto : CreateTransactionDto)
    (createdBy : string) (a : float) : TransactionData :=
  {| data_amount := dto_amount dto;
     data_description := dto_description dto;
     data_type := dto_type dto;
     data_currency := dto_currency dto;
     data_storeId := user_storeId user;
     data_createdBy := createdBy;
     data_amountInINR := a |}.

(** The document that [create] stores for [data]. *)
Definition document (oid : string) (at_ : Z) (data : TransactionData) : Transaction :=
  {| _id := oid;
     storeId := data_storeId data;
     amount := data_amount data;
     description := data_description data;
     type := data_type data;
     currency := data_currency data;
     amountInINR := data_amountInINR data;
     createdBy := data_createdBy data;
     createdAt := at_ |}.

(** The expression that the [try] block of [createTransaction] returns:
    the call of [create] on the object literal. *)
Definition insert_of (user : IUser) (dto : CreateTransactionDto) (a : float)
    : M Transaction :=
  let* createdBy := new_ObjectId (user_id user) in
  TransactionRepository.create (data_of user dto createdBy a).

(** The id that [createdBy] gets when [n] ids have been drawn: the
    user's own, or else the next fresh one; and the number of ids drawn
    once it is fixed. *)
Definition createdBy_of (user : IUser) (w : World) (n : nat) : string :=
  default (entropy w n) (user_id user).

Definition drawn_with (user : IUser) (n : nat) : nat :=
  match user_id user with
  | Some _ => n
  | None => S n
  end.

(** ** Counting *)

Fixpoint sumZ (l : list Z) : Z :=
  match l with
  | [] => 0
  | x :: rest => x + sumZ rest
  end.

(** The number of transactions that the buckets of a report account for:
    the [count] fields of all their entries, added up. *)
Definition counted (buckets : list Bucket) : Z :=
  sumZ (map (fun b => sumZ (map tt_count (bucket_transactions b))) buckets).

(** ** Calendar *)


Definition maxTime : Z := 8640000000000000.

(** ** A sample runtime and sample worlds *)

Definition sample_rates : JsValue :=
  JsObject [("USD", JsNumber 1%float); ("INR", JsNumber 83%float)].

(** The JSON text of [sample_rates]. *)
Definition dquote : string :=
  String (Ascii.Ascii false true false false false true false false) EmptyString.

Definition rates_text : string :=
  "{" +:+ dquote +:+ "USD" +:+ dquote +:+ ":1,"
  +:+ dquote +:+ "INR" +:+ dquote +:+ ":83}".

(** A runtime restricted to the JSON literals [null], [true], [false]
    and [0] and to the rate table [sample_rates]: every other value is
    refused by the printer and every other text by the parser.  The host
    is five and a half hours east of Greenwich all year. *)
Definition literal_runtime : Runtime := {|
  JSON_stringify v :=
    match v with
    | JsNull => Some "null"
    | JsBool true => Some "true"
    | JsBool false => Some "false"
    | JsNumber x => if is_zero x then Some "0" else None
    | JsObject [(k1, JsNumber x1); (k2, JsNumber x2)] =>
        if String.eqb k1 "USD" && PrimFloat.eqb x1 1
           && String.eqb k2 "INR" && PrimFloat.eqb x2 83
        then Some rates_text else None
    | _ => None
    end;
  JSON_parse text :=
    if String.eqb text "null" then Some JsNull
    else if String.eqb text "true" then Some (JsBool true)
    else if String.eqb text "false" then Some (JsBool false)
    else if String.eqb text "0" then Some (JsNumber zero)
    else if String.eqb text rates_text then Some sample_rates
    else None;
  StringToNumber _ := nan;
  Date_parse _ := None;
  LocalTZA _ _ := 19800000
|}.

(** A host whose zone moves from one hour to two hours east of Greenwich
    at 2024-03-31 01:00 UTC. *)
Definition spring_runtime : Runtime := {|
  JSON_stringify := @JSON_stringify literal_runtime;
  JSON_parse := @JSON_parse literal_runtime;
  StringToNumber := @StringToNumber literal_runtime;
  Date_parse := @Date_parse literal_runtime;
  LocalTZA t isUTC :=
    if isUTC
    then (if t <? 1711846800000 then 3600000 else 7200000)
    else (if t <? 1711846800000 + 3600000 then 3600000 else 7200000)
|}.

Definition sample_transaction (oid : string) (at_ : Z) (ty : TransactionType)
    (inr : float) : Transaction :=
  {| _id := oid; storeId := "S"; amount := inr; description := None;
     type := ty; currency := "INR"; amountInINR := inr; createdBy := "u";
     createdAt := at_ |}.

(** Store S with a credit of 100 on Monday 2024-01-01 and a debit of 40 on
    Wednesday 2024-01-03 (both at 00:00 UTC), seen on 2024-01-06; Redis is
    empty and no operation fails. *)
Definition w_idle : World := {|
  redis := ∅;
  now := 1704499200000;
  transactions := [sample_transaction "t1" 1704067200000 CREDIT 100%float;
                   sample_transaction "t2" 1704240000000 DEBIT 40%float];
  trace := [];
  redis_faults := [];
  mongo_faults := [];
  fxRates := fun _ => Some sample_rates;
  entropy := fun n => "uuid-" +:+ pretty n;
  drawn := 0
|}.

(** The same world while another request holds the lock of store S. *)
Definition w_held : World :=
  set_redis <[LOCK_key "transaction:S" :=
                {| value := "someone-else";
                   expireAt := Some (1704499200000 + 10000) |}]> w_idle.

(** The same world with the exchange-rate endpoint down. *)
Definition w_fx_down : World := {|
  redis := ∅;
  now := 1704499200000;
  transactions := transactions w_idle;
  trace := [];
  redis_faults := [];
  mongo_faults := [];
  fxRates := fun _ => None;
  entropy := fun n => "uuid-" +:+ pretty n;
  drawn := 0
|}.

(** The same world with the literal [true] cached under ["flag"] and the
    literal [0] cached under ["count"]. *)
Definition w_cached : World :=
  set_redis (fun db => <["flag" := {| value := "true"; expireAt := None |}]>
                         (<["count" := {| value := "0"; expireAt := None |}]> db))
    w_idle.

(** The same world with Redis unreachable. *)
Definition w_redis_down : World := set_redis_faults [true; true; true] w_cached.

(** Store S with credits of 100 and 50 on two Mondays of the same month,
    2024-01-08 and 2024-01-15, seen on 2024-01-06. *)
Definition w_mondays : World :=
  set_transactions
    [sample_transaction "m1" 1704672000000 CREDIT 100%float;
     sample_transaction "m2" 1705276800000 CREDIT 50%float]
    w_idle.

Definition sample_user : IUser := {| user_id := Some "u"; user_storeId := "S" |}.

(** A user as the JWT strategy builds it: with no [_id]. *)
Definition jwt_user : IUser := {| user_id := None; user_storeId := "S" |}.

Definition sample_dto (c : Currency) : CreateTransactionDto :=
  {| dto_amount := 2%float; dto_description := None;
     dto_type := CREDIT; dto_currency := c |}.

(** The literal runtime with the rate table read by name. *)
Definition rates_runtime : Runtime := {|
  JSON_stringify := @JSON_stringify literal_runtime;
  JSON_parse text :=
    if String.eqb text rates_text then Some sample_rates
    else @JSON_parse literal_runtime text;
  StringToNumber := @StringToNumber literal_runtime;
  Date_parse := @Date_parse literal_runtime;
  LocalTZA := @LocalTZA literal_runtime
|}.

(** The exchange-rate endpoint is down, the rates fetched earlier are
    still cached. *)
Definition w_rates_cached : World :=
  set_redis <[CURRENCY_RATES_key :=
                {| value := rates_text;
                   expireAt := Some (1704499200000 + 3600000) |}]> w_fx_down.

(** The exchange-rate endpoint answers with a body that has no [rates]. *)
Definition w_fx_empty : World := {|
  redis := ∅;
  now := 1704499200000;
  transactions := transactions w_idle;
  trace := [];
  redis_faults := [];
  mongo_faults := [];
  fxRates := fun _ => Some JsUndefined;
  entropy := fun n => "uuid-" +:+ pretty n;
  drawn := 0
|}.

(** Another request holds the lock of store S for 300 ms more. *)
Definition w_expiring : World :=
  set_redis <[LOCK_key "transaction:S" :=
                {| value := "someone-else";
                   expireAt := Some (1704499200000 + 300) |}]> w_idle.

(** * Properties *)

(** ** The Redis client *)

Lemma redis_send_run {A} c (run : M A) w :
  head (redis_faults w) ≠ Some true -> redis_send c run w = run (sent c w).
Proof.
  intros Hf. unfold redis_send, bind, emit. cbn.
  destruct (decide _) as [E|E]; [contradiction|reflexivity].
Qed.

Lemma redis_send_fault {A} c (run : M A) w :
  head (redis_faults w) = Some true ->
  redis_send c run w = (Throw (RedisError "Connection is closed."), sent c w).
Proof.
  intros Hf. unfold redis_send, bind, emit. cbn.
  destruct (decide _) as [E|E]; [reflexivity|contradiction].
Qed.

(** ** The lock manager *)

Import DistributedLockService.

Lemma quiet_S n faults :
  quiet (S n) faults -> head faults ≠ Some true /\ quiet n (tail faults).
Proof.
  unfold quiet. destruct faults as [|b rest]; cbn.
  - intros _. split; [discriminate|]. rewrite take_nil. constructor.
  - intros Hq. inversion Hq; subst. split; [discriminate|assumption].
Qed.

Lemma quiet_le n m faults : (m <= n)%nat -> quiet n faults -> quiet m faults.
Proof.
  unfold quiet. intros Hle Hq.
  rewrite Forall_forall in *. intros b Hb. apply Hq.
  apply list_elem_of_lookup in Hb as [i Hi].
  apply list_elem_of_lookup. exists i.
  apply lookup_take_Some in Hi as [Hi Hlt].
  apply lookup_take_Some. split; [assumption|lia].
Qed.

Lemma backoff_trace_snoc c j rest :
  backoff_trace c j ++ SetTimeout DEFAULT_RETRY_DELAY :: Redis c :: rest
  = SetTimeout DEFAULT_RETRY_DELAY :: Redis c :: backoff_trace c j ++ rest.
Proof.
  induction j as [|j IH]; [reflexivity|].
  cbn [backoff_trace]. rewrite <- !app_comm_cons, IH. reflexivity.
Qed.

Lemma turn_contended key lockKey v ttl w e :
  0 < ttl -> head (redis_faults w) ≠ Some true ->
  live (now w) (redis w) lockKey = Some e ->
  exists w1, acquireLock_turn key lockKey v ttl w = (Return None, w1)
    /\ redis w1 = redis w /\ now w1 = now w + DEFAULT_RETRY_DELAY
    /\ redis_faults w1 = tail (redis_faults w)
    /\ trace w1 = SetTimeout DEFAULT_RETRY_DELAY :: Redis (SET_PX_NX lockKey v ttl) :: trace w
    /\ entropy w1 = entropy w /\ drawn w1 = drawn w /\ transactions w1 = transactions w.
Proof.
  intros Httl Hf Hl.
  unfold acquireLock_turn, try_catch, bind, redis_set_px_nx.
  rewrite redis_send_run by assumption.
  cbn [sent set_redis_faults set_trace now redis].
  destruct (Z.leb_spec ttl 0); [lia|].
  rewrite Hl. cbn.
  eexists; split; [reflexivity|]. cbn. repeat split.
Qed.

Lemma turn_free key lockKey v ttl w :
  0 < ttl -> head (redis_faults w) ≠ Some true ->
  live (now w) (redis w) lockKey = None ->
  exists w1, acquireLock_turn key lockKey v ttl w = (Return (Some v), w1)
    /\ redis w1 = <[lockKey := {| value := v; expireAt := Some (now w + ttl) |}]> (redis w)
    /\ now w1 = now w
    /\ redis_faults w1 = tail (redis_faults w)
    /\ trace w1 = Log debug ("Lock acquired for key: " +:+ key)
                  :: Redis (SET_PX_NX lockKey v ttl) :: trace w
    /\ entropy w1 = entropy w /\ drawn w1 = drawn w /\ transactions w1 = transactions w.
Proof.
  intros Httl Hf Hl.
  unfold acquireLock_turn, try_catch, bind, redis_set_px_nx.
  rewrite redis_send_run by assumption.
  cbn [sent set_redis_faults set_trace now redis].
  destruct (Z.leb_spec ttl 0); [lia|].
  rewrite Hl. cbn.
  eexists; split; [reflexivity|]. cbn. repeat split.
Qed.

(** A turn sends exactly one conditional set, whatever happens. *)
Lemma turn_one_attempt key lockKey v ttl w :
  exists extra, trace (snd (acquireLock_turn key lockKey v ttl w))
                = extra ++ Redis (SET_PX_NX lockKey v ttl) :: trace w
    /\ List.filter is_attempt extra = [].
Proof.
  unfold acquireLock_turn, try_catch, bind, redis_set_px_nx, redis_send, emit.
  cbn.
  destruct (decide _); cbn.
  - eexists [_]. split; reflexivity.
  - destruct (ttl <=? 0); cbn.
    + eexists [_]. split; reflexivity.
    + destruct (live _ _ _); cbn.
      * eexists [_]. split; reflexivity.
      * eexists [_]. split; reflexivity.
Qed.

Lemma while_attempts key lockKey v ttl n : forall w,
  exists new, trace (snd (acquireLock_while key lockKey v ttl n w)) = new ++ trace w
    /\ (length (List.filter is_attempt new) <= n)%nat.
Proof.
  induction n as [|n IH]; intros w.
  - exists []. split; [reflexivity|cbn; lia].
  - cbn [acquireLock_while]. unfold bind.
    destruct (turn_one_attempt key lockKey v ttl w) as (extra & Ht & Hx).
    destruct (acquireLock_turn key lockKey v ttl w) as [[[r|]|e] w1]; cbn in Ht |- *.
    + exists (extra ++ [Redis (SET_PX_NX lockKey v ttl)]).
      rewrite Ht, <- app_assoc. split; [reflexivity|].
      rewrite List.filter_app, Hx. cbn. lia.
    + destruct (IH w1) as (new & Hn & Hc).
      exists (new ++ extra ++ [Redis (SET_PX_NX lockKey v ttl)]).
      rewrite Hn, Ht, <- !app_assoc. split; [reflexivity|].
      rewrite !List.filter_app, Hx, length_app. cbn. lia.
    + exists (extra ++ [Redis (SET_PX_NX lockKey v ttl)]).
      rewrite Ht, <- app_assoc. split; [reflexivity|].
      rewrite List.filter_app, Hx. cbn. lia.
Qed.

Lemma while_contended key lockKey v ttl n : forall w,
  0 < ttl -> quiet n (redis_faults w) ->
  (forall i, (i < n)%nat ->
     is_Some (live (now w + DEFAULT_RETRY_DELAY * Z.of_nat i) (redis w) lockKey)) ->
  exists w', acquireLock_while key lockKey v ttl n w = (Return None, w')
    /\ redis w' = redis w
    /\ now w' = now w + DEFAULT_RETRY_DELAY * Z.of_nat n
    /\ trace w' = backoff_trace (SET_PX_NX lockKey v ttl) n ++ trace w
    /\ entropy w' = entropy w /\ drawn w' = drawn w /\ transactions w' = transactions w.
Proof.
  induction n as [|n IH]; intros w Httl Hq Hheld.
  - exists w. cbn. rewrite Z.add_0_r. repeat split.
  - apply quiet_S in Hq as [Hf Hq].
    destruct (Hheld 0%nat ltac:(lia)) as [e He].
    rewrite Z.mul_0_r, Z.add_0_r in He.
    destruct (turn_contended key lockKey v ttl w e Httl Hf He)
      as (w1 & Ht & Hr & Hn & Hfl & Htr & Hen & Hdr & Htx).
    destruct (IH w1 Httl) as (w' & Hw & Hr' & Hn' & Htr' & Hen' & Hdr' & Htx').
    { rewrite Hfl. exact Hq. }
    { intros i Hi. rewrite Hr, Hn.
      replace (now w + DEFAULT_RETRY_DELAY + DEFAULT_RETRY_DELAY * Z.of_nat i)
        with (now w + DEFAULT_RETRY_DELAY * Z.of_nat (S i)) by lia.
      apply Hheld. lia. }
    exists w'. cbn [acquireLock_while]. unfold bind. rewrite Ht, Hw.
    split; [reflexivity|].
    rewrite Hr', Hn', Htr', Hen', Hdr', Htx', Hr, Hn, Htr, Hen, Hdr, Htx.
    repeat split; try lia.
    apply backoff_trace_snoc.
Qed.

Lemma while_free_at key lockKey v ttl j : forall n w,
  (j < n)%nat -> 0 < ttl -> quiet (S j) (redis_faults w) ->
  (forall i, (i < j)%nat ->
     is_Some (live (now w + DEFAULT_RETRY_DELAY * Z.of_nat i) (redis w) lockKey)) ->
  live (now w + DEFAULT_RETRY_DELAY * Z.of_nat j) (redis w) lockKey = None ->
  exists w', acquireLock_while key lockKey v ttl n w = (Return (Some v), w')
    /\ redis w' = <[lockKey := {| value := v;
                                  expireAt := Some (now w + DEFAULT_RETRY_DELAY * Z.of_nat j + ttl) |}]>
                    (redis w)
    /\ now w' = now w + DEFAULT_RETRY_DELAY * Z.of_nat j
    /\ trace w' = Log debug ("Lock acquired for key: " +:+ key)
                  :: Redis (SET_PX_NX lockKey v ttl)
                  :: backoff_trace (SET_PX_NX lockKey v ttl) j ++ trace w
    /\ entropy w' = entropy w /\ drawn w' = drawn w /\ transactions w' = transactions w.
Proof.
  induction j as [|j IH]; intros n w Hjn Httl Hq Hheld Hfree.
  - destruct n as [|n]; [lia|].
    apply quiet_S in Hq as [Hf _].
    rewrite Z.mul_0_r, Z.add_0_r in Hfree.
    destruct (turn_free key lockKey v ttl w Httl Hf Hfree)
      as (w1 & Ht & Hr & Hn & Hfl & Htr & Hen & Hdr & Htx).
    exists w1. cbn [acquireLock_while]. unfold bind. rewrite Ht.
    split; [reflexivity|].
    rewrite Hr, Hn, Htr, Z.mul_0_r, Z.add_0_r. repeat split; assumption.
  - destruct n as [|n]; [lia|].
    apply quiet_S in Hq as [Hf Hq].
    destruct (Hheld 0%nat ltac:(lia)) as [e He].
    rewrite Z.mul_0_r, Z.add_0_r in He.
    destruct (turn_contended key lockKey v ttl w e Httl Hf He)
      as (w1 & Ht & Hr & Hn & Hfl & Htr & Hen & Hdr & Htx).
    destruct (IH n w1) as (w' & Hw & Hr' & Hn' & Htr' & Hen' & Hdr' & Htx').
    { lia. } { exact Httl. } { rewrite Hfl. exact Hq. }
    { intros i Hi. rewrite Hr, Hn.
      replace (now w + DEFAULT_RETRY_DELAY + DEFAULT_RETRY_DELAY * Z.of_nat i)
        with (now w + DEFAULT_RETRY_DELAY * Z.of_nat (S i)) by lia.
      apply Hheld. lia. }
    { rewrite Hr, Hn.
      replace (now w + DEFAULT_RETRY_DELAY + DEFAULT_RETRY_DELAY * Z.of_nat j)
        with (now w + DEFAULT_RETRY_DELAY * Z.of_nat (S j)) by lia.
      exact Hfree. }
    exists w'. cbn [acquireLock_while]. unfold bind. rewrite Ht, Hw.
    split; [reflexivity|].
    rewrite Hr', Hn', Htr', Hen', Hdr', Htx', Hr, Hn, Htr, Hen, Hdr, Htx.
    repeat split; try lia.
    + f_equal. f_equal. f_equal. lia.
    + cbn [backoff_trace]. rewrite backoff_trace_snoc. reflexivity.
Qed.

(** C4.  [acquireLock] draws a fresh token and, when no command is lost in
    transport, (1) sends at most [retryCount] conditional sets, 3 when the
    argument is left out; (2) if the key is live at every attempt - attempt
    number [i] is made [200 * i] ms after the call - it returns [null]
    without throwing, leaves the keyspace as it was and has waited 200 ms
    after each attempt, [200 * retryCount] ms in all; (3) if the key is
    live at the first [j] attempts and free at the next one, it returns
    the fresh token right after that attempt, [200 * j] ms after the call,
    having stored it under the lock key with the given time to live
    (10000 ms when left out). *)
Theorem acquireLock_retry_budget key ttl retryCount w :
  let ttl_ := default 10000 ttl in
  let retryCount_ := default 3 retryCount in
  let n := Z.to_nat retryCount_ in
  0 < ttl_ ->
  quiet n (redis_faults w) ->
  let token := entropy w (drawn w) in
  let attempt := SET_PX_NX (LOCK_key key) token ttl_ in
  (exists new,
     trace (snd (acquireLock key ttl retryCount w)) = new ++ trace w
     /\ (length (List.filter is_attempt new) <= n)%nat)
  /\ ((forall i, (i < n)%nat -> held_at key w i) ->
      exists w', acquireLock key ttl retryCount w = (Return None, w')
        /\ redis w' = redis w
        /\ now w' = now w + 200 * Z.of_nat n
        /\ trace w' = warn_exhausted key retryCount_
                      :: backoff_trace attempt n ++ trace w)
  /\ (forall j, (j < n)%nat ->
      (forall i, (i < j)%nat -> held_at key w i) -> ~ held_at key w j ->
      exists w', acquireLock key ttl retryCount w = (Return (Some token), w')
        /\ redis w' = <[LOCK_key key :=
                         {| value := token;
                            expireAt := Some (now w + 200 * Z.of_nat j + ttl_) |}]>
                        (redis w)
        /\ now w' = now w + 200 * Z.of_nat j
        /\ trace w' = Log debug ("Lock acquired for key: " +:+ key)
                      :: Redis attempt :: backoff_trace attempt j ++ trace w).
Proof.
  intros ttl_ retryCount_ n Httl Hq token attempt.
  set (w0 := set_drawn (S (drawn w)) w).
  assert (Hacq : acquireLock key ttl retryCount w =
                 match acquireLock_while key (LOCK_key key) token ttl_ n w0 with
                 | (Return (Some v), w') => (Return (Some v), w')
                 | (Return None, w') =>
                     (Return None, set_trace (warn_exhausted key retryCount_ :: trace w') w')
                 | (Throw e, w') => (Throw e, w')
                 end).
  { unfold acquireLock, bind, randomUUID. fold ttl_ retryCount_ n token w0.
    destruct (acquireLock_while _ _ _ _ _ _) as [[[v|]|e] w']; reflexivity. }
  split; [|split].
  - destruct (while_attempts key (LOCK_key key) token ttl_ n w0) as (new & Hn & Hc).
    rewrite Hacq.
    destruct (acquireLock_while _ _ _ _ _ _) as [[[v|]|e] w']; cbn in Hn |- *.
    + exists new. split; assumption.
    + exists (warn_exhausted key retryCount_ :: new). rewrite Hn. split; [reflexivity|].
      cbn. exact Hc.
    + exists new. split; assumption.
  - intros Hheld.
    destruct (while_contended key (LOCK_key key) token ttl_ n w0 Httl Hq Hheld)
      as (w' & Hw & Hr & Hn & Htr & _).
    rewrite Hacq, Hw. eexists; split; [reflexivity|]. cbn.
    rewrite Hr, Hn, Htr. repeat split.
  - intros j Hj Hheld Hfree.
    destruct (while_free_at key (LOCK_key key) token ttl_ j n w0)
      as (w' & Hw & Hr & Hn & Htr & _); try assumption.
    { apply quiet_le with n; [lia|assumption]. }
    { unfold held_at in Hfree. cbn.
      destruct (live _ _ _) eqn:E; [|reflexivity]. exfalso. apply Hfree. eauto. }
    rewrite Hacq, Hw. exists w'. split; [reflexivity|].
    rewrite Hr, Hn, Htr. repeat split.
Qed.

(** ** The cache-aside helper *)

Section CacheFacts.
Context {rt : Runtime}.
Import CacheService.

(** The three ways [get] can end. *)
Lemma get_fault key w :
  head (redis_faults w) = Some true ->
  get key w = (Return JsNull,
               logged error ("Error getting cache key " +:+ key +:+ ":") (sent (GET key) w)).
Proof.
  intros Hf. unfold get, try_catch, bind, redis_get.
  rewrite redis_send_fault by assumption. reflexivity.
Qed.

Lemma get_absent key w :
  head (redis_faults w) ≠ Some true ->
  live (now w) (redis w) key = None ->
  get key w = (Return JsNull, sent (GET key) w).
Proof.
  intros Hf Hl. unfold get, try_catch, bind, redis_get.
  rewrite redis_send_run by assumption.
  cbn [sent set_redis_faults set_trace now redis]. rewrite Hl. reflexivity.
Qed.

Lemma get_present key w e v :
  head (redis_faults w) ≠ Some true ->
  live (now w) (redis w) key = Some e ->
  value e ≠ EmptyString ->
  JSON_parse (value e) = Some v ->
  get key w = (Return v, sent (GET key) w).
Proof.
  intros Hf Hl Hne Hp. unfold get, try_catch, bind, redis_get.
  rewrite redis_send_run by assumption.
  cbn [sent set_redis_faults set_trace now redis]. rewrite Hl. cbn.
  destruct (String.eqb_spec (value e) EmptyString); [contradiction|]. cbn.
  rewrite Hp. reflexivity.
Qed.

Lemma get_total key w : exists v w', get key w = (Return v, w').
Proof.
  unfold get, try_catch, bind, redis_get, redis_send, emit. cbn.
  destruct (decide _); cbn; [eauto|].
  destruct (live _ _ _) as [e|]; cbn; [|eauto].
  destruct (negb _); cbn; [|eauto].
  destruct (JSON_parse _); cbn; eauto.
Qed.

Lemma set_total key v expiry w : exists w', set key v expiry w = (Return tt, w').
Proof.
  unfold set, try_catch, bind, stringify.
  destruct (JSON_stringify v) as [text|]; cbn; [|eauto].
  destruct expiry as [s|]; [destruct (s =? 0)|];
    unfold redis_set, redis_set_ex, redis_send, bind, emit; cbn;
    repeat (destruct (decide _) || destruct (_ <=? _)); cbn; eauto.
Qed.

Lemma set_stores key v text ttl w :
  JSON_stringify v = Some text -> 0 < ttl ->
  head (redis_faults w) ≠ Some true ->
  exists w', set key v (Some ttl) w = (Return tt, w')
    /\ redis w' = <[key := {| value := text; expireAt := Some (now w + 1000 * ttl) |}]> (redis w)
    /\ now w' = now w
    /\ trace w' = Redis (SET_EX key text ttl) :: trace w.
Proof.
  intros Hs Httl Hf. unfold set, try_catch, bind, stringify. rewrite Hs.
  cbn [ret]. destruct (Z.eqb_spec ttl 0); [lia|].
  unfold redis_set_ex. rewrite redis_send_run by assumption.
  cbn [sent set_redis_faults set_trace now redis].
  destruct (Z.leb_spec ttl 0); [lia|]. cbn.
  eexists; split; [reflexivity|]. cbn. repeat split.
Qed.

(** What a write with an explicit expiry leaves in the keyspace: the
    printed value, expiring [ttl] seconds later for a positive [ttl] and
    never for 0; nothing for a negative [ttl] (the server rejects the
    expiry), for a value that does not print and for a lost command. *)
Lemma set_cases key v ttl w :
  exists w', set key v (Some ttl) w = (Return tt, w')
    /\ (forall text,
          JSON_stringify v = Some text -> head (redis_faults w) ≠ Some true ->
          (0 < ttl ->
           redis w' = <[key := {| value := text;
                                  expireAt := Some (now w + 1000 * ttl) |}]> (redis w))
          /\ (ttl = 0 ->
              redis w' = <[key := {| value := text; expireAt := None |}]> (redis w))
          /\ (ttl < 0 -> redis w' = redis w))
    /\ (JSON_stringify v = None \/ head (redis_faults w) = Some true ->
        redis w' = redis w).
Proof.
  unfold set, try_catch, bind, stringify.
  destruct (JSON_stringify v) as [text|] eqn:Hs; cbn [ret throw].
  - destruct (decide (head (redis_faults w) = Some true)) as [Hf|Hf].
    + destruct (Z.eqb_spec ttl 0); unfold redis_set, redis_set_ex;
        rewrite redis_send_fault by exact Hf; cbn;
        (eexists; split; [reflexivity|]; split; [intros; contradiction|reflexivity]).
    + destruct (Z.eqb_spec ttl 0) as [->|Hne]; unfold redis_set, redis_set_ex;
        rewrite redis_send_run by exact Hf;
        cbn [sent set_redis_faults set_trace now redis].
      * eexists; split; [reflexivity|]. split.
        -- intros text' [= <-] _. repeat split; (lia || reflexivity).
        -- intros [?|?]; [discriminate|contradiction].
      * destruct (Z.leb_spec ttl 0); cbn;
          (eexists; split; [reflexivity|]); (split;
            [intros text' [= <-] _; repeat split; intros; (lia || reflexivity)
            |intros [?|?]; [discriminate|contradiction]]).
  - cbn. eexists; split; [reflexivity|]. split; [intros; discriminate|reflexivity].
Qed.

Lemma cached_unfold key ttl (produce : M JsValue) w v w1 :
  get key w = (Return v, w1) ->
  cached key ttl produce w =
    if truthy v then (Return v, w1)
    else match produce w1 with
         | (Return r, w2) =>
             if truthy r
             then (Return r, snd (set key r (Some ttl) w2))
             else (Return JsNull, w2)
         | (Throw e, w2) => (Throw e, w2)
         end.
Proof.
  intros Hg. unfold cached, bind. rewrite Hg.
  destruct (truthy v); [reflexivity|].
  destruct (produce w1) as [[r|e] w2]; [|reflexivity].
  destruct (truthy r); cbn; [|reflexivity].
  destruct (set_total key r (Some ttl) w2) as [w3 Hs]. rewrite Hs. reflexivity.
Qed.

End CacheFacts.

(** ** Frames: what a computation leaves alone *)

Lemma steady_refl ok w : steady ok w w.
Proof. split; [exists []; split; reflexivity|reflexivity]. Qed.

Lemma steady_trans ok w1 w2 w3 :
  steady ok w1 w2 -> steady ok w2 w3 -> steady ok w1 w3.
Proof.
  intros [(n1 & H1 & F1) T1] [(n2 & H2 & F2) T2]. split.
  - exists (n2 ++ n1). rewrite H2, H1, app_assoc. split; [reflexivity|].
    rewrite forallb_app, F1, F2. reflexivity.
  - congruence.
Qed.

Lemma steady_same ok w w' :
  trace w' = trace w -> transactions w' = transactions w -> steady ok w w'.
Proof. intros Ht Hx. split; [exists []; split; [exact Ht|reflexivity]|exact Hx]. Qed.

Lemma keeps_ret {A} ok (a : A) : keeps ok (ret a).
Proof. intros w. apply steady_refl. Qed.

Lemma keeps_throw {A} ok e : keeps ok (@throw A e).
Proof. intros w. apply steady_refl. Qed.

Lemma keeps_bind {A B} ok (m : M A) (k : A -> M B) :
  keeps ok m -> (forall a, keeps ok (k a)) -> keeps ok (bind m k).
Proof.
  intros Hm Hk w. unfold bind. specialize (Hm w).
  destruct (m w) as [[a|e] w1]; cbn in *; [|assumption].
  eapply steady_trans; [eassumption|apply Hk].
Qed.

Lemma keeps_try_catch {A} ok (m : M A) (h : Exn -> M A) :
  keeps ok m -> (forall e, keeps ok (h e)) -> keeps ok (try_catch m h).
Proof.
  intros Hm Hh w. unfold try_catch. specialize (Hm w).
  destruct (m w) as [[a|e] w1]; cbn in *; [assumption|].
  eapply steady_trans; [eassumption|apply Hh].
Qed.

Lemma keeps_emit ok e : ok e = true -> keeps ok (emit e).
Proof.
  intros He w. split; [|reflexivity].
  exists [e]. split; [reflexivity|]. cbn. rewrite He. reflexivity.
Qed.

(** A step that touches neither the trace nor the collection. *)
Lemma keeps_silent {A} ok (m : M A) :
  (forall w, trace (snd (m w)) = trace w /\ transactions (snd (m w)) = transactions w) ->
  keeps ok m.
Proof.
  intros Hm w. destruct (Hm w) as [Ht Hx]. split; [|assumption].
  exists []. split; [assumption|reflexivity].
Qed.

Lemma keeps_redis_send {A} ok c (run : M A) :
  ok (Redis c) = true -> keeps ok run -> keeps ok (redis_send c run).
Proof.
  intros Hc Hr. unfold redis_send. apply keeps_bind; [apply keeps_emit, Hc|].
  intros _ w. cbn zeta. destruct (decide _).
  - apply steady_same; reflexivity.
  - eapply steady_trans; [|apply Hr]. apply steady_same; reflexivity.
Qed.

Ltac keeps_step :=
  first
    [ apply keeps_ret | apply keeps_throw
    | apply keeps_bind; [|intros ?]
    | apply keeps_try_catch; [|intros ?]
    | apply keeps_emit; reflexivity
    | apply keeps_redis_send; [reflexivity|]
    | apply keeps_silent; intros ?; cbn;
      repeat match goal with |- context [match ?x with _ => _ end] => destruct x end;
      split; reflexivity ].

Lemma keeps_setTimeout ms : keeps lock_event (setTimeout ms).
Proof. unfold setTimeout. repeat keeps_step. Qed.

Lemma keeps_acquireLock key ttl retryCount :
  keeps lock_event (DistributedLockService.acquireLock key ttl retryCount).
Proof.
  unfold acquireLock.
  assert (Hw : forall n lockKey v ttl,
             keeps lock_event (acquireLock_while key lockKey v ttl n)).
  { induction n as [|n IH]; intros lockKey v ttl_; cbn [acquireLock_while].
    - keeps_step.
    - keeps_step.
      + unfold acquireLock_turn, redis_set_px_nx, logger.
        keeps_step.
        * keeps_step.
          -- repeat keeps_step.
          -- destruct (decide _); [repeat keeps_step|].
             keeps_step; [apply keeps_setTimeout|keeps_step].
        * repeat keeps_step.
      + destruct a; [keeps_step|apply IH]. }
  keeps_step.
  - unfold randomUUID. keeps_step.
  - keeps_step; [apply Hw|].
    destruct a0; unfold logger; repeat keeps_step.
Qed.

(** ** The conversion step *)

Section ConvertFacts.
Context {rt : Runtime}.
Import CacheService TransactionService.

Lemma keeps_get key : keeps cache_event (get key).
Proof.
  unfold get, redis_get, logger. keeps_step.
  - keeps_step; [repeat keeps_step|].
    destruct a; [|keeps_step].
    destruct (truthy_str _); [|keeps_step].
    destruct (JSON_parse _); keeps_step.
  - repeat keeps_step.
Qed.

Lemma keeps_set key v expiry : keeps cache_event (set key v expiry).
Proof.
  unfold set, stringify, redis_set, redis_set_ex, logger. keeps_step.
  - keeps_step; [destruct (JSON_stringify v); keeps_step|].
    destruct expiry as [s|]; [destruct (s =? 0)|]; repeat keeps_step.
  - repeat keeps_step.
Qed.

Lemma keeps_cached key ttl produce :
  keeps cache_event produce -> keeps cache_event (cached key ttl produce).
Proof.
  intros Hp. unfold cached. keeps_step; [apply keeps_get|].
  destruct (truthy a); [keeps_step|].
  keeps_step; [exact Hp|].
  destruct (negb _); [keeps_step|].
  keeps_step; [apply keeps_set|keeps_step].
Qed.

Lemma keeps_getCurrencyRates : keeps cache_event getCurrencyRates.
Proof.
  unfold getCurrencyRates. apply keeps_cached.
  unfold axios_get_rates, logger. repeat keeps_step.
Qed.

Lemma keeps_convertToINR amount currency :
  keeps cache_event (convertToINR amount currency).
Proof.
  unfold convertToINR. destruct (String.eqb _ _); [keeps_step|].
  keeps_step; [apply keeps_getCurrencyRates|].
  unfold member.
  keeps_step; [destruct a; keeps_step|].
  keeps_step; [destruct a; keeps_step|keeps_step].
Qed.

End ConvertFacts.

Lemma forallb_weaken {A} (p q : A -> bool) l :
  (forall x, p x = true -> q x = true) -> forallb p l = true -> forallb q l = true.
Proof.
  intros Hpq. induction l as [|x l IH]; cbn; [reflexivity|].
  intros Hl. apply andb_prop in Hl as [Hx Hl]. rewrite (Hpq x Hx), (IH Hl). reflexivity.
Qed.

Lemma releaseLock_effect key token w :
  exists extra,
    trace (snd (releaseLock key token w))
      = extra ++ Redis (EVAL_RELEASE (LOCK_key key) token) :: trace w
    /\ forallb (fun e => not_eval e && not_create e) extra = true
    /\ transactions (snd (releaseLock key token w)) = transactions w
    /\ (head (redis_faults w) ≠ Some true ->
        exists b, fst (releaseLock key token w) = Return b).
Proof.
  unfold releaseLock, try_catch, bind, redis_eval_release, redis_send, emit, logger.
  cbn. destruct (decide _) as [Hf|Hf]; cbn.
  - eexists [_]. repeat split. intros; contradiction.
  - destruct (live _ _ _) as [e|]; cbn.
    + destruct (String.eqb _ _); cbn.
      * eexists [_]. repeat split. eauto.
      * exists []. repeat split. eauto.
    + exists []. repeat split. eauto.
Qed.

Section CreateFacts.
Context {rt : Runtime}.
Import CacheService TransactionService.

Lemma get_preserves key w :
  now (snd (get key w)) = now w /\ fxRates (snd (get key w)) = fxRates w.
Proof.
  unfold get, try_catch, bind, redis_get, redis_send, emit, logger. cbn.
  destruct (decide _); cbn; [split; reflexivity|].
  destruct (live _ _ _) as [e|]; cbn; [|split; reflexivity].
  destruct (negb _); cbn; [|split; reflexivity].
  destruct (JSON_parse _); cbn; split; reflexivity.
Qed.

(** A miss followed by a failing provider call surfaces as
    ServiceUnavailable. *)
Lemma getCurrencyRates_unavailable w v w1 :
  get CURRENCY_RATES_key w = (Return v, w1) -> truthy v = false ->
  fxRates w (now w) = None ->
  fst (getCurrencyRates w)
  = Throw (ServiceUnavailableException "Currency service unavailable").
Proof.
  intros Hg Hv Hfx. unfold getCurrencyRates.
  rewrite (cached_unfold _ _ _ _ _ _ Hg), Hv.
  destruct (get_preserves CURRENCY_RATES_key w) as [Hn Hr]. rewrite Hg in Hn, Hr. cbn in Hn, Hr.
  unfold try_catch, axios_get_rates, bind, emit, logger. cbn.
  rewrite Hr, Hn, Hfx. reflexivity.
Qed.

Lemma convertToINR_unavailable amount currency w v w1 :
  currency ≠ Currency_INR ->
  get CURRENCY_RATES_key w = (Return v, w1) -> truthy v = false ->
  fxRates w (now w) = None ->
  fst (convertToINR amount currency w)
  = Throw (ServiceUnavailableException "Currency service unavailable").
Proof.
  intros Hc Hg Hv Hfx. unfold convertToINR.
  destruct (String.eqb_spec currency Currency_INR); [contradiction|].
  unfold bind. pose proof (getCurrencyRates_unavailable w v w1 Hg Hv Hfx) as Hu.
  destruct (getCurrencyRates w) as [[r|e] w2]; cbn in Hu; [discriminate|].
  cbn. congruence.
Qed.

(** X21.  Once [createTransaction] has acquired the lock with a token,
    on every exit path exactly one release command is sent, for the lock
    key and token of the acquisition, right after the conversion step: no
    other release occurs before or after it.  When the conversion fails,
    the collection is left as it was, no insert is attempted and the
    call throws - the conversion's exception unless the release itself is
    lost in transport; a failing rate provider on a cache miss makes the
    conversion fail with ServiceUnavailable. *)
Theorem createTransaction_releases_lock user dto w token w1 :
  DistributedLockService.acquireLock (lockKey_of user) None None w
  = (Return (Some token), w1) ->
  token ≠ EmptyString ->
  let release := Redis (EVAL_RELEASE (LOCK_key (lockKey_of user)) token) in
  let converted := convertToINR (dto_amount dto) (dto_currency dto) w1 in
  let result := createTransaction user dto w in
  exists after mid,
    trace (snd converted) = mid ++ trace w1
    /\ trace (snd result) = after ++ release :: mid ++ trace w1
    /\ forallb not_eval (after ++ mid) = true
    /\ (forall e, fst converted = Throw e ->
          transactions (snd result) = transactions w
          /\ forallb not_create (after ++ mid) = true
          /\ (exists e', fst result = Throw e')
          /\ (head (redis_faults (snd converted)) ≠ Some true -> fst result = Throw e))
    /\ (dto_currency dto ≠ Currency_INR ->
        (exists v w1', get CURRENCY_RATES_key w1 = (Return v, w1') /\ truthy v = false) ->
        fxRates w1 (now w1) = None ->
        fst converted
        = Throw (ServiceUnavailableException "Currency service unavailable")).
Proof.
  intros Hacq Htok release converted result.
  assert (Htx1 : transactions w1 = transactions w).
  { pose proof (keeps_acquireLock (lockKey_of user) None None w) as [_ Hx].
    rewrite Hacq in Hx. exact Hx. }
  destruct (keeps_convertToINR (dto_amount dto) (dto_currency dto) w1)
    as [(mid & Hmid & Fmid) Htx2].
  fold converted in Hmid, Htx2.
  destruct (releaseLock_effect (lockKey_of user) token (snd converted))
    as (extra & Hrel & Fextra & Htx3 & Hok).
  set (insert := fun a =>
                   let* createdBy := new_ObjectId (user_id user) in
                   TransactionRepository.create (data_of user dto createdBy a)).
  assert (Hres : result =
    match converted with
    | (Return a, w2) =>
        match releaseLock (lockKey_of user) token w2 with
        | (Return _, w3) => insert a w3
        | (Throw e, w3) => (Throw e, snd (insert a w3))
        end
    | (Throw e, w2) =>
        match releaseLock (lockKey_of user) token w2 with
        | (Return _, w3) => (Throw e, w3)
        | (Throw e', w3) => (Throw e', w3)
        end
    end).
  { subst result converted. unfold createTransaction. fold (lockKey_of user).
    unfold bind at 1. rewrite Hacq. cbn [truthy_str negb].
    destruct (String.eqb_spec token EmptyString); [contradiction|]. cbn [negb].
    reflexivity. }
  assert (Hcreate : forall a w3,
            exists more, trace (snd (insert a w3)) = more ++ trace w3
                         /\ forallb not_eval more = true).
  { intros a w3. unfold insert, new_ObjectId, TransactionRepository.create, bind,
      randomUUID, mongo_send, emit.
    destruct (user_id user); cbn; destruct (TransactionRepository.castable _); cbn;
      try destruct (decide _); cbn;
      first [exists []; split; reflexivity | eexists [_]; split; reflexivity]. }
  assert (Fmid' : forallb not_eval mid = true /\ forallb not_create mid = true).
  { split; (eapply forallb_weaken; [|exact Fmid]); intros [[]| | | | |]; cbn; congruence. }
  assert (Fextra' : forallb not_eval extra = true /\ forallb not_create extra = true).
  { split; (eapply forallb_weaken; [|exact Fextra]); intros x Hx;
      apply andb_prop in Hx as [? ?]; assumption. }
  destruct Fmid' as [Fm1 Fm2]. destruct Fextra' as [Fe1 Fe2].
  assert (Hrate : dto_currency dto ≠ Currency_INR ->
                  (exists v w1', get CURRENCY_RATES_key w1 = (Return v, w1')
                                 /\ truthy v = false) ->
                  fxRates w1 (now w1) = None ->
                  fst converted
                  = Throw (ServiceUnavailableException "Currency service unavailable")).
  { intros Hc (v & w1' & Hg & Hv) Hfx.
    exact (convertToINR_unavailable _ _ _ _ _ Hc Hg Hv Hfx). }
  destruct converted as [[a|e] w2] eqn:Hconv; cbn [fst snd] in *.
  - (* the conversion succeeded: the insert follows the release *)
    destruct (releaseLock (lockKey_of user) token w2) as [[b|e'] w3] eqn:Hr;
      cbn [fst snd] in *;
      destruct (Hcreate a w3) as (more & Hdoc & Fmore);
      exists (more ++ extra), mid;
      (split; [exact Hmid|]); (split; [|split; [|split]]);
      try exact Hrate; try (intros e0 He0; discriminate).
    + rewrite Hres, Hdoc, Hrel, Hmid, <- app_assoc. reflexivity.
    + rewrite !forallb_app, Fmore, Fe1, Fm1. reflexivity.
    + rewrite Hres. cbn [snd]. rewrite Hdoc, Hrel, Hmid, <- app_assoc. reflexivity.
    + rewrite !forallb_app, Fmore, Fe1, Fm1. reflexivity.
  - (* the conversion failed: nothing is inserted *)
    destruct (releaseLock (lockKey_of user) token w2) as [[b|e'] w3] eqn:Hr;
      cbn [fst snd] in *;
      exists extra, mid;
      (split; [exact Hmid|]); (split; [|split; [|split]]);
      try exact Hrate.
    + rewrite Hres. cbn. rewrite Hrel, Hmid. reflexivity.
    + rewrite forallb_app, Fe1, Fm1. reflexivity.
    + intros e0 He. injection He as <-. rewrite Hres. cbn.
      repeat split; [congruence|rewrite forallb_app, Fe2, Fm2; reflexivity|eauto].
    + rewrite Hres. cbn. rewrite Hrel, Hmid. reflexivity.
    + rewrite forallb_app, Fe1, Fm1. reflexivity.
    + intros e0 He. injection He as <-. rewrite Hres. cbn.
      repeat split; [congruence|rewrite forallb_app, Fe2, Fm2; reflexivity|eauto|].
      intros Hq. destruct (Hok Hq) as [b Hb]. discriminate.
Qed.

End CreateFacts.

Section ConvertSpec.
Context {rt : Runtime}.
Import CacheService TransactionService.

(** C5.  For INR the amount comes back unchanged and the world is left
    exactly as it was: neither the cache nor the provider is consulted.
    For any other currency and any rate table, the result is
    [amount / rates[currency] * rates.INR]. *)
Theorem convertToINR_formula amount currency w :
  (currency = Currency_INR ->
   convertToINR amount currency w = (Return amount, w))
  /\ (currency ≠ Currency_INR ->
      forall props w1,
        getCurrencyRates w = (Return (JsObject props), w1) ->
        convertToINR amount currency w
        = (Return (amount / ToNumber (own_prop currency props)
                   * ToNumber (own_prop "INR" props))%float, w1)).
Proof.
  split.
  - intros ->. reflexivity.
  - intros Hc props w1 Hr. unfold convertToINR.
    destruct (String.eqb_spec currency Currency_INR); [contradiction|].
    unfold bind. rewrite Hr. reflexivity.
Qed.

(** The table reaches the computation from the cache or from the
    provider. *)
Lemma getCurrencyRates_hit w e props :
  head (redis_faults w) ≠ Some true ->
  live (now w) (redis w) CURRENCY_RATES_key = Some e ->
  value e ≠ EmptyString ->
  JSON_parse (value e) = Some (JsObject props) ->
  getCurrencyRates w = (Return (JsObject props), sent (GET CURRENCY_RATES_key) w).
Proof.
  intros Hf Hl Hne Hp. unfold getCurrencyRates.
  rewrite (cached_unfold _ _ _ _ _ _ (get_present _ _ _ _ Hf Hl Hne Hp)). reflexivity.
Qed.

Lemma getCurrencyRates_miss w props :
  head (redis_faults w) ≠ Some true ->
  live (now w) (redis w) CURRENCY_RATES_key = None ->
  fxRates w (now w) = Some (JsObject props) ->
  exists w1, getCurrencyRates w = (Return (JsObject props), w1).
Proof.
  intros Hf Hl Hfx. unfold getCurrencyRates.
  rewrite (cached_unfold _ _ _ _ _ _ (get_absent _ _ Hf Hl)). cbn [truthy].
  unfold try_catch, axios_get_rates, bind, emit. cbn. rewrite Hfx. cbn. eauto.
Qed.

End ConvertSpec.

(** ** Calendar arithmetic *)

(** The epoch was a Thursday; 2024-02-29 exists; the last millisecond
    of 1969 is on a Wednesday. *)
Example calendar_samples :
  (YearFromTime 0, MonthFromTime 0, DateFromTime 0, WeekDay 0) = (1970, 0, 1, 4)
  /\ (YearFromTime 1709164800000, MonthFromTime 1709164800000,
      DateFromTime 1709164800000, WeekDay 1709164800000) = (2024, 1, 29, 4)
  /\ (YearFromTime (-1), MonthFromTime (-1), DateFromTime (-1), WeekDay (-1))
     = (1969, 11, 31, 3)
  /\ MakeDay 2024 12 1 = Day 1735689600000.
Proof. repeat split; vm_compute; reflexivity. Qed.


(** [YearFromDay] meets its specification: the year of a day is the one
    whose first day is the latest not after it. *)
Lemma YearFromDay_spec d :
  DayFromYear (YearFromDay d) <= d < DayFromYear (YearFromDay d + 1).
Proof.
  unfold YearFromDay.
  repeat match goal with
         | |- context [?a <=? ?b] => destruct (Z.leb_spec a b)
         | |- context [?a <? ?b] => destruct (Z.ltb_spec a b)
         end;
    unfold DayFromYear in *; Z.to_euclidean_division_equations; lia.
Qed.

Lemma MonthFromTime_range t : 0 <= MonthFromTime t <= 11.
Proof.
  unfold MonthFromTime. cbn zeta.
  repeat match goal with
         | |- context [if ?c then _ else _] => destruct c
         end; lia.
Qed.






Section DateFacts.
Context {rt : Runtime}.




End DateFacts.

(** A week from 2024-03-28 00:00 in a zone that changes its offset on
    2024-03-31 is an hour short of seven times 24 hours. *)
Example week_across_offset_change :
  Date_setDate (rt:=spring_runtime) (Some 1711580400000)
    ((fun d => d + 7) <$> Date_getDate (rt:=spring_runtime) (Some 1711580400000))
  = Some (1711580400000 + 7 * 86400000 - 3600000).
Proof. vm_compute. reflexivity. Qed.

(** A month after 2024-01-31 is 2024-03-02: February has no 31st and the
    date carries over. *)
Example end_of_january :
  Date_setMonth (rt:=literal_runtime) (Some 1706659200000)
    ((fun m => m + 1) <$> Date_getMonth (rt:=literal_runtime) (Some 1706659200000))
  = Some 1709337600000.
Proof. vm_compute. reflexivity. Qed.


(** ** Grouping *)

Lemma filter_none {A} (p : A -> bool) (l : list A) :
  (forall x, In x l -> p x = false) -> List.filter p l = [].
Proof.
  induction l as [|x l IH]; cbn; intros Hp; [reflexivity|].
  rewrite (Hp x) by (left; reflexivity). apply IH. intros y Hy. apply Hp. right. exact Hy.
Qed.

Section Grouping.
Context {A K : Type} `{EqDecision K}.
Implicit Types (k : K) (ks : list K) (key : A -> K) (docs : list A).

Lemma In_add_key k k' ks : In k' (add_key k ks) <-> k' = k \/ In k' ks.
Proof.
  induction ks as [|k0 ks IH]; cbn.
  - intuition congruence.
  - destruct (decide (k = k0)) as [->|Hne]; cbn; [intuition congruence|].
    rewrite IH. intuition congruence.
Qed.

Lemma NoDup_add_key k ks : List.NoDup ks -> List.NoDup (add_key k ks).
Proof.
  induction ks as [|k0 ks IH]; cbn; intros Hnd.
  - constructor; [intros []|constructor].
  - destruct (decide (k = k0)) as [->|Hne]; [assumption|].
    inversion Hnd as [|? ? Hin Hnd']; subst.
    constructor; [|auto].
    rewrite In_add_key. intros [->|?]; [congruence|contradiction].
Qed.

Lemma first_keys_snoc key docs d :
  first_keys key (docs ++ [d]) = add_key (key d) (first_keys key docs).
Proof. unfold first_keys. rewrite fold_left_app. reflexivity. Qed.

Lemma In_first_keys key docs k :
  In k (first_keys key docs) <-> exists d, In d docs /\ key d = k.
Proof.
  induction docs as [|d docs IH] using rev_ind.
  - cbn. split; [tauto|intros (d & [] & _)].
  - rewrite first_keys_snoc, In_add_key, IH. split.
    + intros [->|(d' & Hd & Hk)].
      * exists d. split; [apply in_or_app; right; left; reflexivity|reflexivity].
      * exists d'. split; [apply in_or_app; left; assumption|assumption].
    + intros (d' & Hd & Hk). apply in_app_or in Hd as [Hd|[->|[]]]; eauto.
Qed.

Lemma NoDup_first_keys key docs : List.NoDup (first_keys key docs).
Proof.
  induction docs as [|d docs IH] using rev_ind.
  - constructor.
  - rewrite first_keys_snoc. apply NoDup_add_key, IH.
Qed.

Lemma group_insert_map k (a : A) ks (f : K -> list A) :
  List.NoDup ks -> (~ In k ks -> f k = []) ->
  group_insert k a (map (fun k' => (k', f k')) ks)
  = map (fun k' => (k', if decide (k = k') then f k' ++ [a] else f k')) (add_key k ks).
Proof.
  induction ks as [|k0 ks IH]; cbn; intros Hnd Hf.
  - rewrite decide_True by reflexivity. rewrite Hf by tauto. reflexivity.
  - inversion Hnd as [|? ? Hin Hnd']; subst.
    destruct (decide (k = k0)) as [->|Hne]; cbn.
    + rewrite decide_True by reflexivity. f_equal.
      apply map_ext_in. intros k' Hk'.
      rewrite decide_False; [reflexivity|].
      intros <-. apply Hin, Hk'.
    + rewrite decide_False by assumption. f_equal. apply IH; [assumption|].
      intros Hk. apply Hf. intros [E|E]; [congruence|contradiction].
Qed.

Lemma group_by_snoc key docs d :
  group_by key (docs ++ [d]) = group_insert (key d) d (group_by key docs).
Proof. unfold group_by. rewrite fold_left_app. reflexivity. Qed.

(** The groups are the classes of [docs] under [key], each in input
    order, listed by first appearance. *)
Lemma group_by_classes key docs :
  group_by key docs
  = map (fun k => (k, List.filter (has_key key k) docs)) (first_keys key docs).
Proof.
  induction docs as [|d docs IH] using rev_ind; [reflexivity|].
  rewrite group_by_snoc, first_keys_snoc, IH.
  rewrite group_insert_map.
  - apply map_ext. intros k. rewrite List.filter_app. cbn [List.filter].
    assert (Hd : has_key key k d = bool_decide (key d = k)) by reflexivity.
    rewrite Hd. destruct (decide (key d = k)) as [E|E].
    + rewrite bool_decide_eq_true_2 by assumption. reflexivity.
    + rewrite bool_decide_eq_false_2 by assumption. rewrite app_nil_r. reflexivity.
  - apply NoDup_first_keys.
  - intros Hk. rewrite In_first_keys in Hk.
    apply filter_none. intros d' Hd'. unfold has_key.
    apply bool_decide_eq_false_2. intros E. apply Hk. eauto.
Qed.

Lemma stage_group_classes {B} key (accumulate : K -> list A -> B) docs :
  stage_group key accumulate docs
  = map (fun k => accumulate k (List.filter (has_key key k) docs)) (first_keys key docs).
Proof.
  unfold stage_group. rewrite group_by_classes, map_map. reflexivity.
Qed.

End Grouping.

Lemma filter_map_comm {A B} (p : B -> bool) (f : A -> B) (l : list A) :
  List.filter p (map f l) = map f (List.filter (fun x => p (f x)) l).
Proof.
  induction l as [|x l IH]; cbn; [reflexivity|].
  destruct (p (f x)); cbn; rewrite IH; reflexivity.
Qed.

Lemma first_keys_map {A B K} `{EqDecision K} (key : B -> K) (f : A -> B) (l : list A) :
  first_keys key (map f l) = first_keys (fun x => key (f x)) l.
Proof.
  induction l as [|x l IH] using rev_ind; [reflexivity|].
  rewrite map_app. cbn [map]. rewrite !first_keys_snoc, IH. reflexivity.
Qed.

#[global] Instance desc_by_total {A} (field : A -> Z) : Total (desc_by field).
Proof. intros a b. unfold desc_by. lia. Qed.

#[global] Instance desc_by_trans {A} (field : A -> Z) : Transitive (desc_by field).
Proof. intros a b c. unfold desc_by. lia. Qed.

Lemma stage_sort_desc_sorted {A} (field : A -> Z) (docs : list A) :
  StronglySorted (desc_by field) (stage_sort_desc field docs).
Proof. apply StronglySorted_merge_sort; apply _. Qed.

Lemma stage_sort_desc_perm {A} (field : A -> Z) (docs : list A) :
  stage_sort_desc field docs ≡ₚ docs.
Proof. apply merge_sort_Permutation. Qed.

(** ** The report pipeline *)

Import Reports.

Lemma report_pipeline_spec storeId_ startDate_ endDate_ groupBy collection :
  buckets_describe groupBy
    (List.filter (Reports.report_query storeId_ startDate_ endDate_) collection)
    (Reports.report_pipeline storeId_ startDate_ endDate_ groupBy collection).
Proof.
  set (matched := List.filter _ collection).
  set (buckets := Reports.report_pipeline _ _ _ _ _).
  set (T := fun k : Z * TransactionType =>
              {| pt_id := k;
                 pt_totalAmount := sum_of amountInINR
                                     (List.filter (has_key (period_type groupBy) k) matched);
                 pt_count := count_of (List.filter (has_key (period_type groupBy) k) matched) |}).
  set (E := fun r => {| tt_type := snd (pt_id r);
                        tt_totalAmount := pt_totalAmount r;
                        tt_count := pt_count r |}).
  set (ks1 := first_keys (period_type groupBy) matched).
  set (totals := map T ks1).
  set (Bk := fun p : Z =>
               {| bucket_id := p;
                  bucket_transactions :=
                    map E (List.filter (has_key (fun r => fst (pt_id r)) p) totals) |}).
  set (ks2 := first_keys (fun r => fst (pt_id r)) totals).
  assert (Hb : buckets = stage_sort_desc bucket_id (map Bk ks2)).
  { subst buckets. unfold report_pipeline. fold matched.
    rewrite (stage_group_classes (fun d => (date_operator groupBy (createdAt d), type d))).
    fold (period_type groupBy). fold ks1. change (map _ ks1) with totals.
    rewrite (stage_group_classes (fun r => fst (pt_id r))). reflexivity. }
  assert (Hperm : buckets ≡ₚ map Bk ks2).
  { rewrite Hb. apply stage_sort_desc_perm. }
  assert (Hks1 : forall k, In k ks1 <-> exists d, In d matched /\ period_type groupBy d = k).
  { intros k. apply In_first_keys. }
  assert (Hks2 : forall p, In p ks2 <-> exists k, In k ks1 /\ fst k = p).
  { intros p. subst ks2 totals. rewrite first_keys_map. cbn. apply In_first_keys. }
  assert (Hin : forall b, In b buckets -> exists p, In p ks2 /\ b = Bk p).
  { intros b Hb'. apply (Permutation_in _ Hperm) in Hb'.
    apply in_map_iff in Hb' as (p & <- & Hp). eauto. }
  assert (Hentries : forall p, bucket_transactions (Bk p)
                      = map (fun k => E (T k)) (List.filter (fun k => bool_decide (fst k = p)) ks1)).
  { intros p. cbn. subst totals. rewrite filter_map_comm, map_map. reflexivity. }
  split; [|split; [|split]].
  - rewrite Hb. apply stage_sort_desc_sorted.
  - eapply Permutation_NoDup; [symmetry; apply Permutation_map, Hperm|].
    rewrite map_map. cbn. rewrite map_id. apply NoDup_first_keys.
  - intros b Hb'. destruct (Hin b Hb') as (p & Hp & ->). rewrite Hentries.
    split; [|split].
    + apply Hks2 in Hp as (k & Hk & Hkp). intros Hnil.
      apply map_eq_nil in Hnil.
      assert (Hk' : In k (List.filter (fun k => bool_decide (fst k = p)) ks1)).
      { apply List.filter_In. split; [exact Hk|]. apply bool_decide_eq_true_2, Hkp. }
      rewrite Hnil in Hk'. destruct Hk'.
    + rewrite map_map. cbn.
      apply NoDup_map_NoDup_ForallPairs; [|apply List.NoDup_filter, NoDup_first_keys].
      intros [p1 t1] [p2 t2] H1 H2.
      apply List.filter_In in H1 as [_ H1]. apply List.filter_In in H2 as [_ H2].
      apply bool_decide_eq_true_1 in H1, H2. cbn in *. congruence.
    + intros e He. apply in_map_iff in He as (k & <- & Hk).
      apply List.filter_In in Hk as [Hk Hf]. apply bool_decide_eq_true_1 in Hf.
      cbn [bucket_id Bk E T tt_type tt_count tt_totalAmount pt_id pt_count pt_totalAmount].
      replace (p, snd k) with k by (destruct k; cbn in *; congruence).
      split; [|split; reflexivity].
      apply Hks1 in Hk as (d & Hd & Hkd). intros Hnil.
      assert (Hd' : In d (List.filter (has_key (period_type groupBy) k) matched)).
      { apply List.filter_In. split; [assumption|]. apply bool_decide_eq_true_2, Hkd. }
      rewrite Hnil in Hd'. destruct Hd'.
  - intros d Hd.
    assert (Hk : In (period_type groupBy d) ks1) by (apply Hks1; eauto).
    assert (Hp : In (date_operator groupBy (createdAt d)) ks2).
    { apply Hks2. exists (period_type groupBy d). split; [assumption|reflexivity]. }
    exists (Bk (date_operator groupBy (createdAt d))), (E (T (period_type groupBy d))).
    split; [|split; [|split; reflexivity]].
    + apply (Permutation_in _ (Permutation_sym Hperm)). apply in_map, Hp.
    + rewrite Hentries. apply in_map_iff. exists (period_type groupBy d).
      split; [reflexivity|]. apply List.filter_In. split; [assumption|].
      apply bool_decide_eq_true_2. reflexivity.
Qed.

(** ** Releasing a lock *)

(** C2.  When the release script reaches the server, [releaseLock]
    returns [true] exactly when the lock key holds a live entry whose
    value is the given token, and in that case the entry is deleted;
    otherwise (another token, or no live entry) it returns [false], the
    keyspace is left as it was and nothing is thrown. *)
Theorem releaseLock_spec key token w :
  head (redis_faults w) ≠ Some true ->
  let held :=
    bool_decide (value <$> live (now w) (redis w) (LOCK_key key) = Some token) in
  exists w',
    DistributedLockService.releaseLock key token w = (Return held, w')
    /\ redis w' = (if held then delete (LOCK_key key) (redis w) else redis w)
    /\ now w' = now w.
Proof.
  intros Hf held. subst held.
  unfold DistributedLockService.releaseLock, try_catch, bind, redis_eval_release.
  rewrite redis_send_run by assumption.
  cbn [sent set_redis_faults set_trace now redis].
  destruct (live (now w) (redis w) (LOCK_key key)) as [e|] eqn:Hl; cbn.
  - destruct (String.eqb_spec (value e) token) as [->|Hne]; cbn.
    + rewrite bool_decide_eq_true_2 by reflexivity.
      eexists; split; [reflexivity|]. cbn. auto.
    + rewrite bool_decide_eq_false_2 by congruence.
      eexists; split; [reflexivity|]. cbn. auto.
  - rewrite bool_decide_eq_false_2 by congruence.
    eexists; split; [reflexivity|]. cbn. auto.
Qed.

(** The holder's token releases the lock of store S; any other token
    leaves it in place. *)
Lemma releaseLock_spec_witness :
  (exists w', DistributedLockService.releaseLock "transaction:S" "someone-else" w_held
              = (Return true, w')
              /\ redis w' = delete (LOCK_key "transaction:S") (redis w_held))
  /\ (exists w', DistributedLockService.releaseLock "transaction:S" "uuid-0" w_held
                 = (Return false, w')
                 /\ redis w' = redis w_held).
Proof.
  split.
  - destruct (releaseLock_spec "transaction:S" "someone-else" w_held)
      as (w' & Hr & Hs & _); [discriminate|].
    exists w'. split; [exact Hr|exact Hs].
  - destruct (releaseLock_spec "transaction:S" "uuid-0" w_held)
      as (w' & Hr & Hs & _); [discriminate|].
    exists w'. split; [exact Hr|exact Hs].
Defined.

(** ** Acquiring a lock *)

(** With the defaults, a request that finds the lock of store S held
    gives up with [null], and one that finds it free gets its token. *)
Lemma acquireLock_retry_budget_witness :
  (exists w',
     DistributedLockService.acquireLock "transaction:S" None None w_held
     = (Return None, w')
     /\ redis w' = redis w_held
     /\ now w' = now w_held + 600
     /\ length (List.filter is_attempt (trace w')) = 3%nat
     /\ List.filter (fun e => negb (is_attempt e)) (trace w')
        = [warn_exhausted "transaction:S" 3;
           SetTimeout 200; SetTimeout 200; SetTimeout 200])
  /\ (exists w',
        DistributedLockService.acquireLock "transaction:S" None None w_idle
        = (Return (Some "uuid-0"), w')
        /\ now w' = now w_idle
        /\ live (now w') (redis w') (LOCK_key "transaction:S")
           = Some {| value := "uuid-0"; expireAt := Some (now w_idle + 10000) |}).
Proof.
  split.
  - destruct (acquireLock_retry_budget "transaction:S" None None w_held)
      as (_ & Hheld & _); [reflexivity|constructor|].
    destruct Hheld as (w' & Hw & Hr & Hn & Htr).
    + intros i Hi.
      assert (i = 0 \/ i = 1 \/ i = 2)%nat as [->|[->| ->]]
        by (cbv [default] in Hi; lia);
        vm_compute; eexists; reflexivity.
    + exists w'. split; [exact Hw|]. split; [exact Hr|]. split; [exact Hn|].
      rewrite Htr. split; reflexivity.
  - destruct (acquireLock_retry_budget "transaction:S" None None w_idle)
      as (_ & _ & Hfree); [reflexivity|constructor|].
    destruct (Hfree 0%nat) as (w' & Hw & Hr & Hn & _).
    + cbv [default]. lia.
    + intros i Hi. lia.
    + vm_compute. intros [e He]. discriminate.
    + exists w'. split; [exact Hw|]. split; [rewrite Hn; reflexivity|].
      unfold live. rewrite Hr, Hn. reflexivity.
Defined.

(** ** The cache-aside helper *)

Section CacheClaims.
Context {rt : Runtime}.
Import CacheService.

(** C6, as amended.  Let [get] yield [v].  If [v] is truthy (a hit),
    [cached] returns [v] in the world [get] left, whatever [produce] is:
    the producer is not run.  If [v] is falsy (a miss), [produce] runs
    next; a falsy result ([null], [undefined], [false], [0], [NaN] or the
    empty string) makes [cached] return [null] in the world the producer
    left, so nothing is stored; a truthy result is handed to [set] with
    the given time to live and then returned, whatever becomes of the
    write.  When the result prints and the write reaches the server, the
    key holds the printed result, expiring [ttl] seconds later for a
    positive [ttl] and never for [ttl = 0]; for a negative [ttl] the
    server rejects the command and nothing is stored.  Nothing is stored
    either when the result does not print or the write is lost. *)
Theorem cached_hit_or_miss key ttl (produce : M JsValue) w v w1 :
  get key w = (Return v, w1) ->
  (truthy v = true -> cached key ttl produce w = (Return v, w1))
  /\ (truthy v = false ->
      forall r w2, produce w1 = (Return r, w2) ->
        (truthy r = false -> cached key ttl produce w = (Return JsNull, w2))
        /\ (truthy r = true ->
            exists w3,
              cached key ttl produce w = (Return r, w3)
              /\ set key r (Some ttl) w2 = (Return tt, w3)
              /\ (forall text,
                    JSON_stringify r = Some text ->
                    head (redis_faults w2) ≠ Some true ->
                    (0 < ttl ->
                     redis w3
                     = <[key := {| value := text;
                                   expireAt := Some (now w2 + 1000 * ttl) |}]>
                         (redis w2))
                    /\ (ttl = 0 ->
                        redis w3
                        = <[key := {| value := text; expireAt := None |}]> (redis w2))
                    /\ (ttl < 0 -> redis w3 = redis w2))
              /\ (JSON_stringify r = None \/ head (redis_faults w2) = Some true ->
                  redis w3 = redis w2))).
Proof.
  intros Hg. rewrite (cached_unfold _ _ _ _ _ _ Hg). split.
  - intros ->. reflexivity.
  - intros -> r w2 Hp. rewrite Hp. split.
    + intros ->. reflexivity.
    + intros ->. destruct (set_cases key r ttl w2) as (w3 & Hs & Hstored & Hlost).
      exists w3. rewrite Hs. split; [reflexivity|]. split; [reflexivity|].
      split; assumption.
Qed.

(** C7.  [get] never throws, and a command lost in transport makes it
    answer [null]; [set] never throws; an exception thrown by the
    producer on a miss is the outcome of [cached]. *)
Theorem cache_transport_errors key (val : JsValue) expiry ttl
    (produce : M JsValue) w :
  (exists v w', get key w = (Return v, w')
                /\ (head (redis_faults w) = Some true -> v = JsNull))
  /\ (exists w', set key val expiry w = (Return tt, w'))
  /\ (forall v w1 e w2,
        get key w = (Return v, w1) -> truthy v = false ->
        produce w1 = (Throw e, w2) ->
        cached key ttl produce w = (Throw e, w2)).
Proof.
  split; [|split].
  - destruct (get_total key w) as (v & w' & Hg). exists v, w'.
    split; [exact Hg|]. intros Hf. rewrite (get_fault key w Hf) in Hg. congruence.
  - apply set_total.
  - intros v w1 e w2 Hg Hv Hp.
    rewrite (cached_unfold _ _ _ _ _ _ Hg), Hv, Hp. reflexivity.
Qed.

(** C9.  On a miss, a falsy result of the producer makes [cached] return
    [null] in the world the producer left: nothing is stored.  And when
    the key holds a live text that parses to a falsy value, [get] hands
    that value back but [cached] treats it as a miss: its outcome is that
    of running the producer right after the read, on each such call. *)
Theorem cached_falsy_values key ttl (produce : M JsValue) w :
  (forall v w1 r w2,
     get key w = (Return v, w1) -> truthy v = false ->
     produce w1 = (Return r, w2) -> truthy r = false ->
     cached key ttl produce w = (Return JsNull, w2))
  /\ (forall e v,
        head (redis_faults w) ≠ Some true ->
        live (now w) (redis w) key = Some e ->
        value e ≠ EmptyString ->
        JSON_parse (value e) = Some v -> truthy v = false ->
        get key w = (Return v, sent (GET key) w)
        /\ cached key ttl produce w
           = match produce (sent (GET key) w) with
             | (Return r, w2) =>
                 if truthy r
                 then (Return r, snd (set key r (Some ttl) w2))
                 else (Return JsNull, w2)
             | (Throw x, w2) => (Throw x, w2)
             end).
Proof.
  split.
  - intros v w1 r w2 Hg Hv Hp Hr.
    rewrite (cached_unfold _ _ _ _ _ _ Hg), Hv, Hp, Hr. reflexivity.
  - intros e v Hf Hl Hne Hp Hv.
    pose proof (get_present key w e v Hf Hl Hne Hp) as Hg.
    split; [exact Hg|].
    rewrite (cached_unfold _ _ _ _ _ _ Hg), Hv. reflexivity.
Qed.

End CacheClaims.

(** A producer that resolves to the number 0 gets [null] back, and the
    keyspace stays empty: the result is neither stored nor returned. *)
Lemma cached_zero_counterexample :
  fst (CacheService.cached (rt:=literal_runtime) "count" 60
         (ret (JsNumber zero)) w_idle) = Return JsNull
  /\ fst (CacheService.cached (rt:=literal_runtime) "count" 60
            (ret (JsNumber zero)) w_idle) <> Return (JsNumber zero)
  /\ redis (snd (CacheService.cached (rt:=literal_runtime) "count" 60
                   (ret (JsNumber zero)) w_idle)) = ∅.
Proof. vm_compute. repeat split. discriminate. Qed.

(** A hit on ["flag"] ignores a producer that would throw; a miss on
    ["fresh"] stores what the producer made: for 60 seconds with a time
    to live of 60, for good with 0, and not at all with -5. *)
Lemma cached_hit_or_miss_witness :
  CacheService.cached (rt:=literal_runtime) "flag" 60 (throw AxiosError) w_cached
  = (Return (JsBool true), sent (GET "flag") w_cached)
  /\ (exists w3,
        CacheService.cached (rt:=literal_runtime) "fresh" 60
          (ret (JsBool true)) w_cached = (Return (JsBool true), w3)
        /\ redis w3 !! "fresh"
           = Some {| value := "true"; expireAt := Some (now w_cached + 60000) |})
  /\ (exists w3,
        CacheService.cached (rt:=literal_runtime) "fresh" 0
          (ret (JsBool true)) w_cached = (Return (JsBool true), w3)
        /\ redis w3 !! "fresh" = Some {| value := "true"; expireAt := None |})
  /\ (exists w3,
        CacheService.cached (rt:=literal_runtime) "fresh" (-5)
          (ret (JsBool true)) w_cached = (Return (JsBool true), w3)
        /\ redis w3 = redis w_cached).
Proof.
  split; [|split; [|split]].
  - apply (cached_hit_or_miss (rt:=literal_runtime) "flag" 60 (throw AxiosError)
             w_cached (JsBool true) (sent (GET "flag") w_cached));
      reflexivity.
  - destruct (cached_hit_or_miss (rt:=literal_runtime) "fresh" 60 (ret (JsBool true))
                w_cached JsNull (sent (GET "fresh") w_cached)) as [_ Hmiss];
      [reflexivity|].
    destruct (Hmiss eq_refl (JsBool true) (sent (GET "fresh") w_cached) eq_refl)
      as [_ Hstore].
    destruct (Hstore eq_refl) as (w3 & Hc & _ & Hr & _).
    exists w3. split; [exact Hc|].
    destruct (Hr "true") as (Hpos & _); [reflexivity|discriminate|].
    rewrite Hpos by reflexivity. apply lookup_insert_eq.
  - destruct (cached_hit_or_miss (rt:=literal_runtime) "fresh" 0 (ret (JsBool true))
                w_cached JsNull (sent (GET "fresh") w_cached)) as [_ Hmiss];
      [reflexivity|].
    destruct (Hmiss eq_refl (JsBool true) (sent (GET "fresh") w_cached) eq_refl)
      as [_ Hstore].
    destruct (Hstore eq_refl) as (w3 & Hc & _ & Hr & _).
    exists w3. split; [exact Hc|].
    destruct (Hr "true") as (_ & Hzero & _); [reflexivity|discriminate|].
    rewrite Hzero by reflexivity. apply lookup_insert_eq.
  - destruct (cached_hit_or_miss (rt:=literal_runtime) "fresh" (-5)
                (ret (JsBool true)) w_cached JsNull (sent (GET "fresh") w_cached))
      as [_ Hmiss]; [reflexivity|].
    destruct (Hmiss eq_refl (JsBool true) (sent (GET "fresh") w_cached) eq_refl)
      as [_ Hstore].
    destruct (Hstore eq_refl) as (w3 & Hc & _ & Hr & _).
    exists w3. split; [exact Hc|].
    destruct (Hr "true") as (_ & _ & Hneg); [reflexivity|discriminate|].
    rewrite Hneg by reflexivity. reflexivity.
Defined.

(** With Redis unreachable the read is a miss and the write is dropped,
    while the producer's exception comes through. *)
Lemma cache_transport_errors_witness :
  fst (CacheService.get (rt:=literal_runtime) "flag" w_redis_down) = Return JsNull
  /\ fst (CacheService.set (rt:=literal_runtime) "flag" (JsBool true) (Some 60)
            w_redis_down) = Return tt
  /\ fst (CacheService.cached (rt:=literal_runtime) "flag" 60 (throw AxiosError)
            w_redis_down) = Throw AxiosError.
Proof.
  destruct (cache_transport_errors (rt:=literal_runtime) "flag" (JsBool true)
              (Some 60) 60 (throw AxiosError) w_redis_down)
    as ((v & w' & Hg & Hnull) & (w'' & Hs) & Hthrow).
  split; [|split].
  - rewrite Hg, (Hnull eq_refl). reflexivity.
  - rewrite Hs. reflexivity.
  - erewrite Hthrow; [reflexivity|exact Hg|rewrite (Hnull eq_refl); reflexivity|].
    reflexivity.
Defined.

(** The cached [0] under ["count"] is read but not served: the producer
    runs, and its own [0] is dropped as well. *)
Lemma cached_falsy_values_witness :
  CacheService.get (rt:=literal_runtime) "count" w_cached
  = (Return (JsNumber zero), sent (GET "count") w_cached)
  /\ CacheService.cached (rt:=literal_runtime) "count" 60 (ret (JsNumber zero))
       w_cached
     = (Return JsNull, sent (GET "count") w_cached).
Proof.
  destruct (cached_falsy_values (rt:=literal_runtime) "count" 60
              (ret (JsNumber zero)) w_cached) as [Hdrop Hstored].
  destruct (Hstored {| value := "0"; expireAt := None |} (JsNumber zero))
    as [Hg _]; [discriminate|reflexivity|discriminate|reflexivity|reflexivity|].
  split; [exact Hg|].
  apply (Hdrop (JsNumber zero) (sent (GET "count") w_cached) (JsNumber zero));
    [exact Hg|reflexivity|reflexivity|reflexivity].
Defined.

(** ** Creating a transaction *)

(** A credit in USD while the exchange-rate endpoint is down: the call
    fails with ServiceUnavailable, nothing is persisted and the lock of
    store S is released. *)
Lemma createTransaction_releases_lock_witness :
  fst (TransactionService.createTransaction (rt:=literal_runtime) sample_user
         (sample_dto "USD") w_fx_down)
  = Throw (ServiceUnavailableException "Currency service unavailable")
  /\ transactions (snd (TransactionService.createTransaction (rt:=literal_runtime)
                          sample_user (sample_dto "USD") w_fx_down))
     = transactions w_fx_down
  /\ In (Redis (EVAL_RELEASE (LOCK_key "transaction:S") "uuid-0"))
       (trace (snd (TransactionService.createTransaction (rt:=literal_runtime)
                      sample_user (sample_dto "USD") w_fx_down))).
Proof.
  destruct (createTransaction_releases_lock (rt:=literal_runtime) sample_user
              (sample_dto "USD") w_fx_down "uuid-0"
              (snd (DistributedLockService.acquireLock (lockKey_of sample_user)
                      None None w_fx_down)))
    as (after & mid & _ & Htr & _ & Hfail & Hrate);
    [vm_compute; reflexivity|discriminate|].
  assert (Hconv := Hrate ltac:(discriminate)
                     ltac:(eexists _, _; split; vm_compute; reflexivity)
                     eq_refl).
  destruct (Hfail _ Hconv) as (Htx & _ & _ & Hres).
  split; [|split].
  - apply Hres. vm_compute. discriminate.
  - exact Htx.
  - rewrite Htr. apply in_or_app. right. left. reflexivity.
Defined.

(** Two dollars at 83 rupees to the dollar, and two rupees. *)
Lemma convertToINR_formula_witness :
  fst (TransactionService.convertToINR (rt:=literal_runtime) 2%float "USD" w_idle)
  = Return 166%float
  /\ TransactionService.convertToINR (rt:=literal_runtime) 2%float "INR" w_idle
     = (Return 2%float, w_idle).
Proof.
  destruct (convertToINR_formula (rt:=literal_runtime) 2%float "USD" w_idle)
    as [_ Hfx].
  destruct (convertToINR_formula (rt:=literal_runtime) 2%float "INR" w_idle)
    as [Hinr _].
  split; [|exact (Hinr eq_refl)].
  erewrite Hfx; [|discriminate|vm_compute; reflexivity].
  vm_compute. reflexivity.
Defined.

(** ** Reports *)

Lemma mongo_send_run {A} e (run : M A) w :
  head (mongo_faults w) ≠ Some true -> mongo_send e run w = run (mongo_sent e w).
Proof.
  intros Hf. unfold mongo_send, bind, emit. cbn.
  destruct (decide _) as [E|E]; [contradiction|reflexivity].
Qed.

Lemma summary_pipeline_rows storeId_ startDate_ endDate_ collection :
  Reports.summary_pipeline storeId_ startDate_ endDate_ collection
  = match List.filter (Reports.report_query storeId_ startDate_ endDate_) collection with
    | [] => []
    | d :: ds => [Reports.summary_row (d :: ds)]
    end.
Proof.
  unfold Reports.summary_pipeline, stage_match.
  rewrite stage_group_classes.
  set (matched := List.filter _ collection).
  assert (Hall : forall l : list Transaction,
             List.filter (has_key (fun _ => tt) tt) l = l).
  { induction l as [|x l IH]; cbn; [reflexivity|]. rewrite IH. reflexivity. }
  assert (Hkeys : forall l : list Transaction,
             first_keys (fun _ => tt) l = match l with [] => [] | _ => [tt] end).
  { induction l as [|x l IH] using rev_ind; [reflexivity|].
    rewrite first_keys_snoc, IH. destruct l; reflexivity. }
  rewrite Hkeys. destruct matched as [|d ds] eqn:E; [reflexivity|].
  cbn [map]. rewrite Hall. reflexivity.
Qed.

Section ReportFacts.
Context {rt : Runtime}.
Import Reports.

Lemma aggregate_run {R} (pipeline : list Transaction -> list R) w :
  head (mongo_faults w) ≠ Some true ->
  aggregate pipeline w
  = (Return (pipeline (transactions w)), mongo_sent MongoAggregate w).
Proof. intros Hf. unfold aggregate. rewrite mongo_send_run by assumption. reflexivity. Qed.

(** With the database reachable, [generateReport] returns a report made
    of the two aggregations over the collection as it stands. *)
Lemma generateReport_run storeId_ durationType startDate_ groupBy w :
  quiet 2 (mongo_faults w) ->
  exists report w',
    generateReport storeId_ durationType startDate_ groupBy w = (Return report, w')
    /\ startDate report = startDate_
    /\ endDate report
       = match durationType with
         | week => Date_setDate startDate_ ((fun d => d + 7) <$> Date_getDate startDate_)
         | month => Date_setMonth startDate_ ((fun m => m + 1) <$> Date_getMonth startDate_)
         end
    /\ report_transactions report
       = report_pipeline storeId_ startDate_ (endDate report)
           (default op_dayOfWeek groupBy) (transactions w)
    /\ summary report
       = match List.filter (report_query storeId_ startDate_ (endDate report))
                 (transactions w) with
         | [] => summary_fallback
         | d :: ds => summary_row (d :: ds)
         end
    /\ transactions w' = transactions w.
Proof.
  intros Hq. apply quiet_S in Hq as [Hf1 Hq]. apply quiet_S in Hq as [Hf2 _].
  unfold generateReport, calculateSummary, bind.
  rewrite aggregate_run by assumption.
  rewrite aggregate_run by exact Hf2.
  cbn [transactions mongo_sent set_mongo_faults set_trace].
  rewrite summary_pipeline_rows.
  destruct (List.filter _ (transactions w)) as [|d ds] eqn:E; cbn.
  - eexists _, _. split; [reflexivity|]. cbn. rewrite E. repeat split.
  - eexists _, _. split; [reflexivity|]. cbn. rewrite E. repeat split.
Qed.

End ReportFacts.

Lemma weekdays_bound (ids : list Z) :
  List.NoDup ids -> (forall x, In x ids -> 1 <= x <= 7) -> (length ids <= 7)%nat.
Proof.
  intros Hnd Hr.
  change 7%nat with (length [1; 2; 3; 4; 5; 6; 7]).
  apply List.NoDup_incl_length; [exact Hnd|].
  intros x Hx. specialize (Hr x Hx). cbn.
  assert (x = 1 \/ x = 2 \/ x = 3 \/ x = 4 \/ x = 5 \/ x = 6 \/ x = 7) by lia.
  intuition auto.
Qed.

Lemma dayOfWeek_range t : 1 <= date_operator op_dayOfWeek t <= 7.
Proof.
  cbn. unfold WeekDay. pose proof (Z.mod_pos_bound (Day t + 4) 7). lia.
Qed.

Section ReportClaims.
Context {rt : Runtime}.
Import Reports TransactionController.


(** C10.  Both report endpoints call [generateReport] without a
    [groupBy], which then groups by [$dayOfWeek].  So with a reachable
    database either endpoint returns a report whose buckets describe the
    matched transactions by day of the week: the keys are distinct
    numbers from 1 to 7, at most seven buckets exist whatever the length
    of the period, and a transaction is counted in the bucket of its
    weekday. *)
Theorem public_reports_by_weekday user date w :
  quiet 2 (mongo_faults w) ->
  getWeeklyReport user date w
  = (let* startDate_ := request_date date in
     generateReport (user_storeId user) week startDate_ (Some op_dayOfWeek)) w
  /\ getMonthlyReport user date w
     = (let* startDate_ := request_date date in
        generateReport (user_storeId user) month startDate_ (Some op_dayOfWeek)) w
  /\ forall endpoint,
       endpoint = getWeeklyReport \/ endpoint = getMonthlyReport ->
       exists report w',
         endpoint user date w = (Return report, w')
         /\ buckets_describe op_dayOfWeek
              (List.filter (report_query (user_storeId user) (startDate report)
                              (endDate report)) (transactions w))
              (report_transactions report)
         /\ (forall b, In b (report_transactions report) -> 1 <= bucket_id b <= 7)
         /\ (length (report_transactions report) <= 7)%nat.
Proof.
  intros Hq. split; [reflexivity|]. split; [reflexivity|].
  assert (Hgen : forall durationType,
            exists report w',
              (let* startDate_ := request_date date in
               generateReport (user_storeId user) durationType startDate_ None) w
              = (Return report, w')
              /\ buckets_describe op_dayOfWeek
                   (List.filter (report_query (user_storeId user) (startDate report)
                                   (endDate report)) (transactions w))
                   (report_transactions report)
              /\ (forall b, In b (report_transactions report) -> 1 <= bucket_id b <= 7)
              /\ (length (report_transactions report) <= 7)%nat).
  { intros durationType. unfold bind.
    assert (Hd : exists s, request_date date w = (Return s, w)).
    { unfold request_date. destruct (truthy_str date); eexists; reflexivity. }
    destruct Hd as [s Hd]. rewrite Hd.
    destruct (generateReport_run (user_storeId user) durationType s None w Hq)
      as (report & w' & Hrun & Hstart & _ & Hbuckets & _ & _).
    exists report, w'. split; [exact Hrun|].
    assert (Hdesc : buckets_describe op_dayOfWeek
                      (List.filter (report_query (user_storeId user) (startDate report)
                                      (endDate report)) (transactions w))
                      (report_transactions report)).
    { rewrite Hbuckets, Hstart.
      exact (report_pipeline_spec (user_storeId user) s (endDate report)
               op_dayOfWeek (transactions w)). }
    assert (Hids : forall b, In b (report_transactions report) -> 1 <= bucket_id b <= 7).
    { intros b Hb. destruct Hdesc as (_ & _ & Hentries & _).
      destruct (Hentries b Hb) as (Hsome & _ & He).
      destruct (bucket_transactions b) as [|e es] eqn:Ees; [congruence|].
      destruct (He e (or_introl eq_refl)) as (Hne & _ & _).
      remember (List.filter (has_key (period_type op_dayOfWeek) (bucket_id b, tt_type e))
                  (List.filter (report_query (user_storeId user) (startDate report)
                                  (endDate report)) (transactions w)))
        as members eqn:Em.
      destruct members as [|d ds]; [congruence|].
      assert (Hd' : In d (d :: ds)) by (left; reflexivity).
      rewrite Em in Hd'. apply List.filter_In in Hd' as [_ Hk].
      apply bool_decide_eq_true_1 in Hk. injection Hk as Hk _.
      rewrite <- Hk. apply dayOfWeek_range. }
    split; [exact Hdesc|]. split; [exact Hids|].
    rewrite <- (length_map bucket_id). apply weekdays_bound.
    - apply Hdesc.
    - intros x Hx. apply in_map_iff in Hx as (b & <- & Hb). apply Hids, Hb. }
  intros endpoint [-> | ->]; apply Hgen.
Qed.

End ReportClaims.

Section SummaryFacts.
Context {rt : Runtime}.
Import Reports.

(** The summary of a report is the fallback literal when nothing matches
    and the row of the [$group] stage otherwise; that row has no
    [netFlow] member. *)
Lemma summary_members storeId_ durationType startDate_ groupBy w :
  quiet 2 (mongo_faults w) ->
  exists report w',
    generateReport storeId_ durationType startDate_ groupBy w = (Return report, w')
    /\ (List.filter (report_query storeId_ startDate_ (endDate report))
          (transactions w) = [] ->
        summary report = summary_fallback)
    /\ (List.filter (report_query storeId_ startDate_ (endDate report))
          (transactions w) <> [] ->
        summary report
        = summary_row (List.filter (report_query storeId_ startDate_ (endDate report))
                         (transactions w))
        /\ field (summary report) "netFlow" = JsUndefined).
Proof.
  intros Hq.
  destruct (generateReport_run storeId_ durationType startDate_ groupBy w Hq)
    as (report & w' & Hrun & _ & _ & _ & Hsum & _).
  exists report, w'. split; [exact Hrun|].
  destruct (List.filter _ (transactions w)) as [|d ds].
  - split; [intros _; exact Hsum|congruence].
  - split; [discriminate|]. intros _. rewrite Hsum. split; reflexivity.
Qed.

End SummaryFacts.

(** C1.  The scenario of the specification: store S, a credit of 100 on
    Monday 2024-01-01 and a debit of 40 on Wednesday 2024-01-03, weekly
    report from 2024-01-01 grouped by day of the week.  The buckets are as
    specified, Wednesday (4) before Monday (2); the summary is the row of
    the [$group] stage, [{_id: null, totalCredit: 100, totalDebit: 40,
    transactionCount: 2}], and reading its [netFlow] gives [undefined],
    not 60. *)
Theorem generateReport_scenario_summary :
  fst (Reports.generateReport (rt:=literal_runtime) "S" week (Some 1704067200000)
         (Some op_dayOfWeek) w_idle)
  = Return
      {| startDate := Some 1704067200000;
         endDate := Some 1704672000000;
         report_transactions :=
           [{| bucket_id := 4;
               bucket_transactions :=
                 [{| tt_type := DEBIT; tt_totalAmount := 40%float; tt_count := 1 |}] |};
            {| bucket_id := 2;
               bucket_transactions :=
                 [{| tt_type := CREDIT; tt_totalAmount := 100%float; tt_count := 1 |}] |}];
         summary :=
           JsObject [("_id", JsNull);
                     ("totalCredit", JsNumber 100%float);
                     ("totalDebit", JsNumber 40%float);
                     ("transactionCount", JsNumber 2%float)] |}
  /\ field (JsObject [("_id", JsNull);
                      ("totalCredit", JsNumber 100%float);
                      ("totalDebit", JsNumber 40%float);
                      ("transactionCount", JsNumber 2%float)]) "netFlow"
     = JsUndefined.
Proof. split; vm_compute; reflexivity. Qed.


(** The monthly report of 2024-01-06 over two Mondays: one bucket, keyed
    2 (Monday), holding both credits. *)
Lemma public_reports_by_weekday_witness :
  (exists report w',
     TransactionController.getMonthlyReport (rt:=literal_runtime) sample_user None
       w_mondays = (Return report, w')
     /\ (length (report_transactions report) <= 7)%nat)
  /\ report_transactions
       <$> returned (fst (TransactionController.getMonthlyReport
                            (rt:=literal_runtime) sample_user None w_mondays))
     = Some
         [{| bucket_id := 2;
             bucket_transactions :=
               [{| tt_type := CREDIT; tt_totalAmount := 150%float; tt_count := 2 |}] |}].
Proof.
  split.
  - destruct (public_reports_by_weekday (rt:=literal_runtime) sample_user None
                w_mondays) as (_ & _ & Hall); [constructor|].
    destruct (Hall TransactionController.getMonthlyReport (or_intror eq_refl))
      as (report & w' & Hrun & _ & _ & Hlen).
    exists report, w'. split; [exact Hrun|exact Hlen].
  - vm_compute. reflexivity.
Defined.

(** * Further properties *)

(** ** The lock manager: life cycle of a lock *)

Lemma acquireLock_free key ttl retryCount w :
  0 < default LOCK_expiry ttl ->
  0 < default DEFAULT_RETRY_COUNT retryCount ->
  head (redis_faults w) ≠ Some true ->
  live (now w) (redis w) (LOCK_key key) = None ->
  acquireLock key ttl retryCount w
  = (Return (Some (entropy w (drawn w))), acquired key (default LOCK_expiry ttl) w).
Proof.
  intros Httl Hrc Hf Hl. unfold acquireLock, bind, randomUUID.
  destruct (Z.to_nat (default DEFAULT_RETRY_COUNT retryCount)) as [|n] eqn:En; [lia|].
  cbn [acquireLock_while]. unfold bind, acquireLock_turn, try_catch, bind, redis_set_px_nx.
  rewrite redis_send_run by exact Hf.
  cbn [sent set_redis_faults set_trace set_drawn now redis].
  destruct (Z.leb_spec (default LOCK_expiry ttl) 0); [lia|].
  rewrite Hl. reflexivity.
Qed.

Lemma releaseLock_own key token w e :
  head (redis_faults w) ≠ Some true ->
  live (now w) (redis w) (LOCK_key key) = Some e ->
  value e = token ->
  releaseLock key token w = (Return true, released key token w).
Proof.
  intros Hf Hl Hv. unfold releaseLock, try_catch, bind, redis_eval_release.
  rewrite redis_send_run by exact Hf.
  cbn [sent set_redis_faults set_trace now redis]. rewrite Hl, Hv, String.eqb_refl.
  reflexivity.
Qed.

Lemma live_acquired key ttl w :
  0 < ttl ->
  live (now (acquired key ttl w)) (redis (acquired key ttl w)) (LOCK_key key)
  = Some {| value := entropy w (drawn w); expireAt := Some (now w + ttl) |}.
Proof.
  intros Httl. unfold live. cbn. rewrite lookup_insert_eq. unfold expired. cbn.
  destruct (Z.leb_spec (now w + ttl) (now w)); [lia|reflexivity].
Qed.

(** X1.  Acquire and release are inverse to each other on the keyspace:
    on a free lock [acquireLock] returns a fresh token at its first
    attempt, [releaseLock] with that token returns true and leaves Redis
    exactly as it was before the acquisition, and the lock can then be
    acquired again at once, with a different draw of the token source
    and without any wait. *)
Theorem lock_round_trip key w :
  live (now w) (redis w) (LOCK_key key) = None ->
  quiet 3 (redis_faults w) ->
  let token := entropy w (drawn w) in
  let w1 := acquired key LOCK_expiry w in
  let w2 := released key token w1 in
  acquireLock key None None w = (Return (Some token), w1)
  /\ releaseLock key token w1 = (Return true, w2)
  /\ redis w2 = delete (LOCK_key key) (redis w)
  /\ acquireLock key None None w2
     = (Return (Some (entropy w (S (drawn w)))), acquired key LOCK_expiry w2)
  /\ now (acquired key LOCK_expiry w2) = now w.
Proof.
  intros Hl Hq token w1 w2.
  apply quiet_S in Hq as [Hf1 Hq]. apply quiet_S in Hq as [Hf2 Hq].
  apply quiet_S in Hq as [Hf3 _].
  split; [|split; [|split; [|split]]].
  - apply acquireLock_free; [reflexivity|reflexivity|exact Hf1|exact Hl].
  - eapply releaseLock_own; [exact Hf2|apply live_acquired; reflexivity|reflexivity].
  - cbn. apply delete_insert_eq.
  - apply acquireLock_free; [reflexivity|reflexivity|exact Hf3|].
    unfold live. cbn. rewrite lookup_delete_eq. reflexivity.
  - reflexivity.
Qed.

Lemma lock_round_trip_witness :
  acquireLock "transaction:S" None None w_idle
  = (Return (Some "uuid-0"), acquired "transaction:S" LOCK_expiry w_idle)
  /\ releaseLock "transaction:S" "uuid-0" (acquired "transaction:S" LOCK_expiry w_idle)
     = (Return true,
        released "transaction:S" "uuid-0" (acquired "transaction:S" LOCK_expiry w_idle)).
Proof.
  destruct (lock_round_trip "transaction:S" w_idle) as (H1 & H2 & _);
    [reflexivity|constructor|].
  split; [exact H1|exact H2].
Defined.

(** X2.  A lock left behind by a holder that never releases it is taken
    over once its expiry has passed: if the entry expires within the
    retry budget, [acquireLock] succeeds at the first attempt made at or
    after the expiry, that is after ceil((expiry - now) / 200) waits of
    200 ms, and replaces the stale entry by its own token with a full
    time to live. *)
Theorem expired_lock_is_taken_over key retryCount w e expiry :
  redis w !! LOCK_key key = Some e ->
  expireAt e = Some expiry ->
  now w < expiry ->
  let n := Z.to_nat (default DEFAULT_RETRY_COUNT retryCount) in
  let j := Z.to_nat ((expiry - now w + DEFAULT_RETRY_DELAY - 1) / DEFAULT_RETRY_DELAY) in
  (j < n)%nat ->
  quiet n (redis_faults w) ->
  exists w',
    acquireLock key None retryCount w = (Return (Some (entropy w (drawn w))), w')
    /\ now w' = now w + DEFAULT_RETRY_DELAY * Z.of_nat j
    /\ expiry <= now w' < expiry + DEFAULT_RETRY_DELAY
    /\ redis w' = <[LOCK_key key := {| value := entropy w (drawn w);
                                       expireAt := Some (now w' + LOCK_expiry) |}]>
                    (redis w).
Proof.
  intros He Hx Hnow n j Hj Hq.
  set (token := entropy w (drawn w)).
  set (w0 := set_drawn (S (drawn w)) w).
  assert (Hj1 : DEFAULT_RETRY_DELAY * Z.of_nat j - DEFAULT_RETRY_DELAY
                < expiry - now w <= DEFAULT_RETRY_DELAY * Z.of_nat j).
  { subst j. unfold DEFAULT_RETRY_DELAY in *.
    rewrite Z2Nat.id by (apply Z.div_pos; lia).
    pose proof (Z.div_mod (expiry - now w + 200 - 1) 200 ltac:(lia)).
    pose proof (Z.mod_pos_bound (expiry - now w + 200 - 1) 200 ltac:(lia)). lia. }
  destruct (while_free_at key (LOCK_key key) token LOCK_expiry j n w0)
    as (w1 & Hw & Hr & Hn & Htr & _).
  - exact Hj.
  - reflexivity.
  - apply quiet_le with n; [lia|exact Hq].
  - intros i Hi. cbn. unfold live. rewrite He. unfold expired. rewrite Hx.
    destruct (Z.leb_spec expiry (now w + DEFAULT_RETRY_DELAY * Z.of_nat i)); [|eauto].
    unfold DEFAULT_RETRY_DELAY in *. lia.
  - cbn. unfold live. rewrite He. unfold expired. rewrite Hx.
    destruct (Z.leb_spec expiry (now w + DEFAULT_RETRY_DELAY * Z.of_nat j));
      [reflexivity|lia].
  - exists w1. split; [|split; [|split]].
    + unfold acquireLock, bind, randomUUID. cbn [default]. fold token w0 n.
      rewrite Hw. reflexivity.
    + rewrite Hn. reflexivity.
    + rewrite Hn. cbn. lia.
    + rewrite Hr, Hn. cbn. reflexivity.
Qed.

(** A lock with 300 ms left is taken over at the third attempt, 400 ms
    after the first. *)
Lemma expired_lock_is_taken_over_witness :
  exists w',
    acquireLock "transaction:S" None None w_expiring = (Return (Some "uuid-0"), w')
    /\ now w' = now w_expiring + 400.
Proof.
  destruct (expired_lock_is_taken_over "transaction:S" None w_expiring
              {| value := "someone-else"; expireAt := Some 1704499200300 |}
              1704499200300)
    as (w' & H1 & H2 & _).
  - vm_compute. reflexivity.
  - reflexivity.
  - reflexivity.
  - vm_compute. lia.
  - constructor.
  - exists w'. split; [exact H1|exact H2].
Defined.

Lemma isLocked_run key w :
  head (redis_faults w) ≠ Some true ->
  isLocked key w
  = (Return (bool_decide (is_Some (live (now w) (redis w) (LOCK_key key)))),
     sent (EXISTS (LOCK_key key)) w).
Proof.
  intros Hf. unfold isLocked, try_catch, bind, redis_exists.
  rewrite redis_send_run by exact Hf.
  cbn [sent set_redis_faults set_trace now redis].
  destruct (live (now w) (redis w) (LOCK_key key)) as [e|]; reflexivity.
Qed.

(** X3.  [isLocked] agrees with [acquireLock]: once a lock was taken
    with time to live [ttl] at time [t], and for as long as nobody
    touches the entry, [isLocked] answers true strictly before [t + ttl]
    and false from [t + ttl] on; it never changes the keyspace. *)
Theorem isLocked_until_expiry key ttl w later :
  0 < default LOCK_expiry ttl ->
  live (now w) (redis w) (LOCK_key key) = None ->
  quiet 1 (redis_faults w) ->
  redis later = redis (acquired key (default LOCK_expiry ttl) w) ->
  head (redis_faults later) ≠ Some true ->
  acquireLock key ttl None w
  = (Return (Some (entropy w (drawn w))), acquired key (default LOCK_expiry ttl) w)
  /\ exists later',
       isLocked key later
       = (Return (bool_decide (now later < now w + default LOCK_expiry ttl)), later')
       /\ redis later' = redis later.
Proof.
  intros Httl Hl Hq Hr Hf. apply quiet_S in Hq as [Hf1 _]. split.
  - apply acquireLock_free; [exact Httl|reflexivity|exact Hf1|exact Hl].
  - rewrite isLocked_run by exact Hf.
    exists (sent (EXISTS (LOCK_key key)) later). split; [|reflexivity].
    f_equal. f_equal. apply bool_decide_ext.
    unfold live. rewrite Hr. cbn. rewrite lookup_insert_eq.
    unfold expired. cbn.
    destruct (Z.leb_spec (now w + default LOCK_expiry ttl) (now later)).
    + split; [intros [x Hx]; discriminate|lia].
    + split; [lia|eauto].
Qed.

Lemma isLocked_until_expiry_witness :
  exists later',
    isLocked "transaction:S" (acquired "transaction:S" LOCK_expiry w_idle)
    = (Return true, later').
Proof.
  destruct (isLocked_until_expiry "transaction:S" None w_idle
              (acquired "transaction:S" LOCK_expiry w_idle))
    as (_ & later' & H & _).
  - reflexivity.
  - reflexivity.
  - constructor.
  - reflexivity.
  - vm_compute. discriminate.
  - exists later'. exact H.
Defined.

(** X4.  With a retry count of zero or less [acquireLock] makes no
    attempt at all: it returns null at once, sends nothing to Redis and
    only logs the warning, whatever the state of the lock. *)
Theorem acquireLock_without_budget key ttl retryCount w :
  retryCount <= 0 ->
  acquireLock key ttl (Some retryCount) w
  = (Return None,
     set_trace (warn_exhausted key retryCount :: trace w)
       (set_drawn (S (drawn w)) w)).
Proof.
  intros Hrc. unfold acquireLock, bind, randomUUID.
  change (default DEFAULT_RETRY_COUNT (Some retryCount)) with retryCount.
  replace (Z.to_nat retryCount) with 0%nat by lia. reflexivity.
Qed.

Lemma acquireLock_without_budget_witness :
  fst (acquireLock "transaction:S" None (Some 0) w_idle) = Return None
  /\ redis (snd (acquireLock "transaction:S" None (Some 0) w_idle)) = redis w_idle.
Proof.
  rewrite (acquireLock_without_budget "transaction:S" None 0 w_idle); [|lia].
  split; reflexivity.
Defined.

Lemma turn_fault key lockKey v ttl w :
  head (redis_faults w) = Some true ->
  exists w1,
    acquireLock_turn key lockKey v ttl w
    = (Throw (RedisError "Connection is closed."), w1)
    /\ redis w1 = redis w /\ now w1 = now w
    /\ trace w1 = Log error ("Failed to acquire lock for key " +:+ key +:+ ":")
                  :: Redis (SET_PX_NX lockKey v ttl) :: trace w.
Proof.
  intros Hf. unfold acquireLock_turn, try_catch, bind, redis_set_px_nx.
  rewrite redis_send_fault by exact Hf. cbn.
  eexists. split; [reflexivity|]. cbn. repeat split.
Qed.

Lemma while_fault_at key lockKey v ttl k : forall n w,
  (k < n)%nat -> 0 < ttl -> quiet k (redis_faults w) ->
  redis_faults w !! k = Some true ->
  (forall i, (i < k)%nat ->
     is_Some (live (now w + DEFAULT_RETRY_DELAY * Z.of_nat i) (redis w) lockKey)) ->
  exists w',
    acquireLock_while key lockKey v ttl n w
    = (Throw (RedisError "Connection is closed."), w')
    /\ redis w' = redis w
    /\ now w' = now w + DEFAULT_RETRY_DELAY * Z.of_nat k
    /\ trace w' = Log error ("Failed to acquire lock for key " +:+ key +:+ ":")
                  :: Redis (SET_PX_NX lockKey v ttl)
                  :: backoff_trace (SET_PX_NX lockKey v ttl) k ++ trace w.
Proof.
  induction k as [|k IH]; intros n w Hkn Httl Hq Hbad Hheld.
  - destruct n as [|n]; [lia|].
    assert (Hf : head (redis_faults w) = Some true).
    { destruct (redis_faults w); [discriminate|exact Hbad]. }
    destruct (turn_fault key lockKey v ttl w Hf) as (w1 & Ht & Hr & Hn & Htr).
    exists w1. cbn [acquireLock_while]. unfold bind. rewrite Ht.
    split; [reflexivity|]. rewrite Hr, Hn, Htr. cbn. repeat split. lia.
  - destruct n as [|n]; [lia|].
    apply quiet_S in Hq as [Hf Hq].
    destruct (Hheld 0%nat ltac:(lia)) as [e He].
    rewrite Z.mul_0_r, Z.add_0_r in He.
    destruct (turn_contended key lockKey v ttl w e Httl Hf He)
      as (w1 & Ht & Hr & Hn & Hfl & Htr & _).
    destruct (IH n w1) as (w' & Hw & Hr' & Hn' & Htr').
    + lia.
    + exact Httl.
    + rewrite Hfl. exact Hq.
    + rewrite Hfl. destruct (redis_faults w); [discriminate|exact Hbad].
    + intros i Hi. rewrite Hr, Hn.
      replace (now w + DEFAULT_RETRY_DELAY + DEFAULT_RETRY_DELAY * Z.of_nat i)
        with (now w + DEFAULT_RETRY_DELAY * Z.of_nat (S i)) by lia.
      apply Hheld. lia.
    + exists w'. cbn [acquireLock_while]. unfold bind. rewrite Ht, Hw.
      split; [reflexivity|]. rewrite Hr', Hn', Htr', Hr, Hn, Htr.
      repeat split; [lia|].
      cbn [backoff_trace]. rewrite backoff_trace_snoc. reflexivity.
Qed.

(** X5.  A transport failure ends the retry loop: if the lock is held
    during the first [k] attempts and attempt number [k] (from 0, within
    the budget) is lost in transport, [acquireLock] logs the error and
    rethrows it right after that attempt; there is no further attempt
    and no wait after it, and the keyspace is as it was. *)
Theorem acquireLock_rethrows key ttl retryCount w k :
  let ttl_ := default LOCK_expiry ttl in
  let n := Z.to_nat (default DEFAULT_RETRY_COUNT retryCount) in
  (k < n)%nat -> 0 < ttl_ ->
  quiet k (redis_faults w) ->
  redis_faults w !! k = Some true ->
  (forall i, (i < k)%nat -> held_at key w i) ->
  let attempt := SET_PX_NX (LOCK_key key) (entropy w (drawn w)) ttl_ in
  exists w',
    acquireLock key ttl retryCount w
    = (Throw (RedisError "Connection is closed."), w')
    /\ redis w' = redis w
    /\ trace w' = Log error ("Failed to acquire lock for key " +:+ key +:+ ":")
                  :: Redis attempt :: backoff_trace attempt k ++ trace w.
Proof.
  intros ttl_ n Hk Httl Hq Hbad Hheld attempt.
  destruct (while_fault_at key (LOCK_key key) (entropy w (drawn w)) ttl_ k n
              (set_drawn (S (drawn w)) w) Hk Httl Hq Hbad Hheld)
    as (w' & Hw & Hr & _ & Htr).
  exists w'. split; [|split; [exact Hr|exact Htr]].
  unfold acquireLock, bind, randomUUID. fold ttl_ n. rewrite Hw. reflexivity.
Qed.

(** The lock is held, the first attempt is answered and the second one
    is lost. *)
Lemma acquireLock_rethrows_witness :
  exists w',
    acquireLock "transaction:S" None None (set_redis_faults [false; true] w_held)
    = (Throw (RedisError "Connection is closed."), w')
    /\ redis w' = redis w_held.
Proof.
  destruct (acquireLock_rethrows "transaction:S" None None
              (set_redis_faults [false; true] w_held) 1)
    as (w' & H & Hr & _).
  - vm_compute. lia.
  - reflexivity.
  - repeat constructor.
  - reflexivity.
  - intros i Hi. assert (i = 0%nat) as -> by lia. vm_compute. eauto.
  - exists w'. split; [exact H|exact Hr].
Defined.

(** ** The cache-aside helper: answers, expiry and lost writes *)

Section CacheExtras.
Context {rt : Runtime}.
Import CacheService.

(** X6.  [get] always answers and never changes the keyspace; an answer
    other than null means that the command reached the server and the
    key holds a live, non-empty entry whose text parses to that answer.
    A transport fault, an absent or expired key, an empty text and an
    unparseable text all read as null. *)
Theorem get_answers key w :
  exists v w',
    get key w = (Return v, w')
    /\ redis w' = redis w
    /\ (v <> JsNull ->
        head (redis_faults w) ≠ Some true
        /\ exists e, live (now w) (redis w) key = Some e
                     /\ value e ≠ EmptyString
                     /\ JSON_parse (value e) = Some v).
Proof.
  destruct (decide (head (redis_faults w) = Some true)) as [Hf|Hf].
  - rewrite (get_fault key w Hf). eexists _, _. split; [reflexivity|].
    split; [reflexivity|]. intros Hv. congruence.
  - destruct (live (now w) (redis w) key) as [e|] eqn:Hl.
    + unfold get, try_catch, bind, redis_get. rewrite redis_send_run by exact Hf.
      cbn [sent set_redis_faults set_trace now redis]. rewrite Hl. cbn.
      destruct (String.eqb_spec (value e) EmptyString) as [He|He]; cbn.
      * eexists _, _. split; [reflexivity|]. split; [reflexivity|]. congruence.
      * destruct (JSON_parse (value e)) as [v|] eqn:Hp; cbn.
        -- eexists _, _. split; [reflexivity|]. split; [reflexivity|].
           intros _. split; [exact Hf|]. exists e. auto.
        -- eexists _, _. split; [reflexivity|]. split; [reflexivity|]. congruence.
    + rewrite (get_absent key w Hf Hl). eexists _, _. split; [reflexivity|].
      split; [reflexivity|]. congruence.
Qed.

(** X7.  What [cached] stores is served for [ttl] seconds: after a miss
    whose truthy result [r] was written (the codec round-trips [r]), a
    later call on the same keyspace returns [r] without running its
    producer while less than 1000 * ttl ms have passed since the write,
    and from then on treats the key as missing and runs the producer
    again. *)
Theorem cached_second_call key ttl (produce again : M JsValue) w r w2 text :
  head (redis_faults w) ≠ Some true ->
  live (now w) (redis w) key = None ->
  produce (sent (GET key) w) = (Return r, w2) ->
  truthy r = true ->
  JSON_stringify r = Some text -> text ≠ EmptyString -> JSON_parse text = Some r ->
  0 < ttl ->
  head (redis_faults w2) ≠ Some true ->
  exists w3,
    cached key ttl produce w = (Return r, w3)
    /\ forall later,
         redis later = redis w3 -> head (redis_faults later) ≠ Some true ->
         (now later < now w2 + 1000 * ttl ->
          cached key ttl again later = (Return r, sent (GET key) later))
         /\ (now w2 + 1000 * ttl <= now later ->
             cached key ttl again later
             = match again (sent (GET key) later) with
               | (Return r', w') =>
                   if truthy r'
                   then (Return r', snd (set key r' (Some ttl) w'))
                   else (Return JsNull, w')
               | (Throw x, w') => (Throw x, w')
               end).
Proof.
  intros Hf Hl Hp Hr Hs Hne Hparse Httl Hf2.
  destruct (set_stores key r text ttl w2 Hs Httl Hf2) as (w3 & Hset & Hredis & _).
  exists w3. split.
  - rewrite (cached_unfold _ _ _ _ _ _ (get_absent key w Hf Hl)). cbn [truthy].
    rewrite Hp, Hr, Hset. reflexivity.
  - intros later Hlater Hfl. split.
    + intros Hfresh.
      assert (Hlive : live (now later) (redis later) key
                      = Some {| value := text; expireAt := Some (now w2 + 1000 * ttl) |}).
      { unfold live. rewrite Hlater, Hredis, lookup_insert_eq. unfold expired. cbn.
        destruct (Z.leb_spec (now w2 + 1000 * ttl) (now later)); [lia|reflexivity]. }
      rewrite (cached_unfold _ _ _ _ _ _
                 (get_present key later _ r Hfl Hlive Hne Hparse)), Hr.
      reflexivity.
    + intros Hstale.
      assert (Hdead : live (now later) (redis later) key = None).
      { unfold live. rewrite Hlater, Hredis, lookup_insert_eq. unfold expired. cbn.
        destruct (Z.leb_spec (now w2 + 1000 * ttl) (now later)); [reflexivity|lia]. }
      rewrite (cached_unfold _ _ _ _ _ _ (get_absent key later Hfl Hdead)).
      reflexivity.
Qed.

(** X8.  [set] without an expiry, or with an expiry of 0 (which the
    test [if (expiry)] takes for none), stores the printed value for
    good: the entry is live at every later time. *)
Theorem set_without_expiry key (val : JsValue) text expiry w :
  expiry = None \/ expiry = Some 0 ->
  JSON_stringify val = Some text ->
  head (redis_faults w) ≠ Some true ->
  exists w',
    set key val expiry w = (Return tt, w')
    /\ redis w' = <[key := {| value := text; expireAt := None |}]> (redis w)
    /\ forall t, live t (redis w') key = Some {| value := text; expireAt := None |}.
Proof.
  intros Hx Hs Hf.
  assert (Hset : set key val expiry w
                 = (Return tt, set_redis <[key := {| value := text; expireAt := None |}]>
                                 (sent (SET key text) w))).
  { unfold set, try_catch, bind, stringify. rewrite Hs. cbn [ret].
    destruct Hx as [-> | ->]; cbn [Z.eqb]; unfold redis_set;
      rewrite redis_send_run by exact Hf; reflexivity. }
  eexists. split; [exact Hset|]. split; [reflexivity|].
  intros t. unfold live. cbn. rewrite lookup_insert_eq. reflexivity.
Qed.

(** X9.  A write that fails does not cost the caller the result: on a
    miss with a truthy producer result, [cached] returns that result even
    if the SET is lost in transport or the result cannot be printed;
    nothing is stored then. *)
Theorem cached_survives_failed_write key ttl (produce : M JsValue) w v w1 r w2 :
  get key w = (Return v, w1) -> truthy v = false ->
  produce w1 = (Return r, w2) -> truthy r = true ->
  head (redis_faults w2) = Some true \/ JSON_stringify r = None ->
  exists w3,
    cached key ttl produce w = (Return r, w3)
    /\ redis w3 = redis w2.
Proof.
  intros Hg Hv Hp Hr Hbad.
  rewrite (cached_unfold _ _ _ _ _ _ Hg), Hv, Hp, Hr.
  eexists. split; [reflexivity|].
  unfold set, try_catch, bind, stringify.
  destruct (JSON_stringify r) as [text|] eqn:Hs.
  - destruct Hbad as [Hf|?]; [|discriminate]. cbn [ret].
    destruct (ttl =? 0); unfold redis_set, redis_set_ex;
      rewrite redis_send_fault by exact Hf; reflexivity.
  - reflexivity.
Qed.

End CacheExtras.

Lemma cached_second_call_witness :
  exists w3,
    CacheService.cached (rt:=literal_runtime) "fresh" 60 (ret (JsBool true)) w_idle
    = (Return (JsBool true), w3)
    /\ CacheService.cached (rt:=literal_runtime) "fresh" 60 (throw AxiosError) w3
       = (Return (JsBool true), sent (GET "fresh") w3).
Proof.
  destruct (cached_second_call (rt:=literal_runtime) "fresh" 60
              (ret (JsBool true)) (throw AxiosError) w_idle (JsBool true)
              (sent (GET "fresh") w_idle) "true")
    as (w3 & H1 & H2).
  - vm_compute. discriminate.
  - reflexivity.
  - reflexivity.
  - reflexivity.
  - reflexivity.
  - discriminate.
  - reflexivity.
  - lia.
  - vm_compute. discriminate.
  - exists w3. split; [exact H1|].
    assert (Hw3 : w3 = snd (CacheService.cached (rt:=literal_runtime) "fresh" 60
                              (ret (JsBool true)) w_idle)) by (rewrite H1; reflexivity).
    destruct (H2 w3 eq_refl) as [Hfresh _].
    + rewrite Hw3. vm_compute. discriminate.
    + apply Hfresh. rewrite Hw3. vm_compute. reflexivity.
Defined.

Lemma set_without_expiry_witness :
  exists w',
    CacheService.set (rt:=literal_runtime) "flag" (JsBool true) None w_idle
    = (Return tt, w')
    /\ live (now w_idle + 1000000000) (redis w') "flag"
       = Some {| value := "true"; expireAt := None |}.
Proof.
  destruct (set_without_expiry (rt:=literal_runtime) "flag" (JsBool true) "true"
              None w_idle)
    as (w' & H1 & _ & H2).
  - left. reflexivity.
  - reflexivity.
  - vm_compute. discriminate.
  - exists w'. split; [exact H1|apply H2].
Defined.

(** The GET is answered and the SET is lost: the rate table is returned
    all the same, and nothing is stored. *)
Lemma cached_survives_failed_write_witness :
  exists w3,
    CacheService.cached (rt:=literal_runtime) "rates" 60 (ret sample_rates)
      (set_redis_faults [false; true] w_idle)
    = (Return sample_rates, w3)
    /\ redis w3 = redis w_idle.
Proof.
  destruct (cached_survives_failed_write (rt:=literal_runtime) "rates" 60
              (ret sample_rates) (set_redis_faults [false; true] w_idle) JsNull
              (sent (GET "rates") (set_redis_faults [false; true] w_idle))
              sample_rates
              (sent (GET "rates") (set_redis_faults [false; true] w_idle)))
    as (w3 & H1 & H2).
  - reflexivity.
  - reflexivity.
  - reflexivity.
  - reflexivity.
  - left. reflexivity.
  - exists w3. split; [exact H1|exact H2].
Defined.

(** ** Currency conversion: cached tables, unknown currencies, empty answers *)

Lemma div_nan (a : float) : (a / nan)%float = nan.
Proof.
  apply Prim2SF_inj. rewrite div_spec.
  change (Prim2SF nan) with S754_nan.
  destruct (Prim2SF a); reflexivity.
Qed.

Lemma mul_nan_l (b : float) : (nan * b)%float = nan.
Proof.
  apply Prim2SF_inj. rewrite mul_spec.
  change (Prim2SF nan) with S754_nan. reflexivity.
Qed.

Lemma mul_nan_r (a : float) : (a * nan)%float = nan.
Proof.
  apply Prim2SF_inj. rewrite mul_spec.
  change (Prim2SF nan) with S754_nan.
  destruct (Prim2SF a); reflexivity.
Qed.

Section ConvertExtras.
Context {rt : Runtime}.
Import CacheService TransactionService.

Lemma convertToINR_with_table amount currency w props w1 :
  currency ≠ Currency_INR ->
  getCurrencyRates w = (Return (JsObject props), w1) ->
  convertToINR amount currency w
  = (Return (amount / ToNumber (own_prop currency props)
             * ToNumber (own_prop "INR" props))%float, w1).
Proof.
  intros Hc Hr. unfold convertToINR.
  destruct (String.eqb_spec currency Currency_INR); [contradiction|].
  unfold bind. rewrite Hr. reflexivity.
Qed.

(** X10.  While a rate table is live in the cache, conversion does not
    depend on the rate provider: a foreign amount is converted from the
    cached table with a single GET and no HTTP request, whether or not
    the provider could be reached. *)
Theorem cached_rates_outlive_outage amount currency w e props :
  currency ≠ Currency_INR ->
  head (redis_faults w) ≠ Some true ->
  live (now w) (redis w) CURRENCY_RATES_key = Some e ->
  value e ≠ EmptyString ->
  JSON_parse (value e) = Some (JsObject props) ->
  convertToINR amount currency w
  = (Return (amount / ToNumber (own_prop currency props)
             * ToNumber (own_prop "INR" props))%float,
     sent (GET CURRENCY_RATES_key) w).
Proof.
  intros Hc Hf Hl Hne Hp.
  apply convertToINR_with_table; [exact Hc|].
  apply (getCurrencyRates_hit w e props Hf Hl Hne Hp).
Qed.

(** X11.  A currency that the rate table does not list is not rejected:
    when the table has no entry for the currency, or none for INR, the
    conversion completes normally and its result is NaN. *)
Theorem unknown_currency_is_NaN amount currency w props w1 :
  currency ≠ Currency_INR ->
  getCurrencyRates w = (Return (JsObject props), w1) ->
  own_prop currency props = JsUndefined \/ own_prop "INR" props = JsUndefined ->
  convertToINR amount currency w = (Return nan, w1).
Proof.
  intros Hc Hr Hmiss.
  rewrite (convertToINR_with_table amount currency w props w1 Hc Hr).
  f_equal. f_equal.
  destruct Hmiss as [-> | ->]; cbn [ToNumber].
  - rewrite div_nan. apply mul_nan_l.
  - apply mul_nan_r.
Qed.

(** X12.  When the cache has no table and the provider's answer carries
    no usable [rates] (a falsy value such as undefined or null), nothing
    is cached, [getCurrencyRates] yields null and the conversion fails
    with a TypeError on reading [rates.INR], not with
    ServiceUnavailable. *)
Theorem response_without_rates amount currency w rates :
  currency ≠ Currency_INR ->
  head (redis_faults w) ≠ Some true ->
  live (now w) (redis w) CURRENCY_RATES_key = None ->
  fxRates w (now w) = Some rates -> truthy rates = false ->
  exists msg w',
    convertToINR amount currency w = (Throw (TypeError msg), w')
    /\ redis w' = redis w
    /\ trace w' = HttpGet :: Redis (GET CURRENCY_RATES_key) :: trace w.
Proof.
  intros Hc Hf Hl Hfx Hfalsy. unfold convertToINR.
  destruct (String.eqb_spec currency Currency_INR); [contradiction|].
  unfold bind, getCurrencyRates.
  rewrite (cached_unfold _ _ _ _ _ _ (get_absent _ _ Hf Hl)). cbn [truthy].
  unfold try_catch, axios_get_rates, bind, emit. cbn. rewrite Hfx. cbn.
  rewrite Hfalsy. cbn. eexists _, _. split; [reflexivity|]. split; reflexivity.
Qed.

End ConvertExtras.

(** The provider is down and the table is cached: 2 USD are 166 INR. *)
Lemma cached_rates_outlive_outage_witness :
  TransactionService.convertToINR (rt:=rates_runtime) 2%float "USD" w_rates_cached
  = (Return 166%float, sent (GET CURRENCY_RATES_key) w_rates_cached).
Proof.
  rewrite (cached_rates_outlive_outage (rt:=rates_runtime) 2%float "USD"
             w_rates_cached
             {| value := rates_text; expireAt := Some (1704499200000 + 3600000) |}
             [("USD", JsNumber 1%float); ("INR", JsNumber 83%float)]).
  - vm_compute. reflexivity.
  - discriminate.
  - vm_compute. discriminate.
  - vm_compute. reflexivity.
  - vm_compute. discriminate.
  - vm_compute. reflexivity.
Defined.

Lemma unknown_currency_is_NaN_witness :
  fst (TransactionService.convertToINR (rt:=literal_runtime) 2%float "EUR" w_idle)
  = Return nan.
Proof.
  rewrite (unknown_currency_is_NaN (rt:=literal_runtime) 2%float "EUR" w_idle
             [("USD", JsNumber 1%float); ("INR", JsNumber 83%float)]
             (snd (TransactionService.getCurrencyRates (rt:=literal_runtime) w_idle))).
  - reflexivity.
  - discriminate.
  - vm_compute. reflexivity.
  - left. reflexivity.
Defined.

Lemma response_without_rates_witness :
  exists msg w',
    TransactionService.convertToINR (rt:=literal_runtime) 2%float "USD" w_fx_empty
    = (Throw (TypeError msg), w')
    /\ redis w' = redis w_fx_empty.
Proof.
  destruct (response_without_rates (rt:=literal_runtime) 2%float "USD" w_fx_empty
              JsUndefined)
    as (msg & w' & H1 & H2 & _).
  - discriminate.
  - vm_compute. discriminate.
  - reflexivity.
  - reflexivity.
  - reflexivity.
  - exists msg, w'. split; [exact H1|exact H2].
Defined.

(** ** What the conversion step may touch *)

Lemma confined_refl key w : confined key w w.
Proof. repeat split. Qed.

Lemma confined_trans key w1 w2 w3 :
  confined key w1 w2 -> confined key w2 w3 -> confined key w1 w3.
Proof.
  intros (A1 & A2 & A3 & A4 & A5 & A6 & A7) (B1 & B2 & B3 & B4 & B5 & B6 & B7).
  repeat split; try congruence. intros k Hk. rewrite B7, A7 by exact Hk. reflexivity.
Qed.

Lemma touches_ret {A} key (a : A) : touches_only key (ret a).
Proof. intros w. apply confined_refl. Qed.

Lemma touches_throw {A} key e : touches_only key (@throw A e).
Proof. intros w. apply confined_refl. Qed.

Lemma touches_bind {A B} key (m : M A) (k : A -> M B) :
  touches_only key m -> (forall a, touches_only key (k a)) ->
  touches_only key (bind m k).
Proof.
  intros Hm Hk w. unfold bind. specialize (Hm w).
  destruct (m w) as [[a|e] w1]; cbn in *; [|assumption].
  eapply confined_trans; [eassumption|apply Hk].
Qed.

Lemma touches_try_catch {A} key (m : M A) (h : Exn -> M A) :
  touches_only key m -> (forall e, touches_only key (h e)) ->
  touches_only key (try_catch m h).
Proof.
  intros Hm Hh w. unfold try_catch. specialize (Hm w).
  destruct (m w) as [[a|e] w1]; cbn in *; [assumption|].
  eapply confined_trans; [eassumption|apply Hh].
Qed.

Lemma touches_emit key e : touches_only key (emit e).
Proof. intros w. repeat split. Qed.

Lemma touches_redis_send {A} key c (run : M A) :
  touches_only key run -> touches_only key (redis_send c run).
Proof.
  intros Hr. unfold redis_send. apply touches_bind; [apply touches_emit|].
  intros _ w. cbn zeta. destruct (decide _).
  - repeat split.
  - eapply confined_trans; [|apply Hr]. repeat split.
Qed.

Section Confinement.
Context {rt : Runtime}.
Import CacheService TransactionService.

Lemma touches_get key : touches_only key (get key).
Proof.
  unfold get, redis_get, logger. apply touches_try_catch.
  - apply touches_bind.
    + apply touches_redis_send. intros w. repeat split.
    + intros [text|]; [|apply touches_ret].
      destruct (truthy_str _); [|apply touches_ret].
      destruct (JSON_parse _); [apply touches_ret|apply touches_throw].
  - intros e. apply touches_bind; [apply touches_emit|intros; apply touches_ret].
Qed.

Lemma touches_set key v expiry : touches_only key (set key v expiry).
Proof.
  assert (Hins : forall e (w : World),
             confined key w (set_redis <[key := e]> w)).
  { intros e w. repeat split. intros k Hk. cbn. apply lookup_insert_ne. congruence. }
  unfold set, stringify, redis_set, redis_set_ex, logger. apply touches_try_catch.
  - apply touches_bind.
    + destruct (JSON_stringify v); [apply touches_ret|apply touches_throw].
    + intros text.
      assert (Hplain : touches_only key
                (redis_send (SET key text)
                   (fun w => (Return (Some "OK"),
                              set_redis <[key := {| value := text; expireAt := None |}]> w));;
                 ret tt)).
      { apply touches_bind; [|intros; apply touches_ret].
        apply touches_redis_send. intros w. apply Hins. }
      destruct expiry as [s|]; [destruct (s =? 0)|]; try exact Hplain.
      apply touches_bind; [|intros; apply touches_ret].
      apply touches_redis_send. intros w. cbn.
      destruct (s <=? 0); cbn; [apply confined_refl|apply Hins].
  - intros e. apply touches_bind; [apply touches_emit|intros; apply touches_ret].
Qed.

Lemma touches_cached key ttl produce :
  touches_only key produce -> touches_only key (cached key ttl produce).
Proof.
  intros Hp. unfold cached. apply touches_bind; [apply touches_get|].
  intros v. destruct (truthy v); [apply touches_ret|].
  apply touches_bind; [exact Hp|]. intros r.
  destruct (negb _); [apply touches_ret|].
  apply touches_bind; [apply touches_set|intros; apply touches_ret].
Qed.

(** The conversion step changes nothing but the cached rate table. *)
Lemma touches_convertToINR amount currency :
  touches_only CURRENCY_RATES_key (convertToINR amount currency).
Proof.
  unfold convertToINR. destruct (String.eqb _ _); [apply touches_ret|].
  apply touches_bind.
  - unfold getCurrencyRates. apply touches_cached.
    unfold axios_get_rates, logger. apply touches_try_catch.
    + apply touches_bind; [apply touches_emit|]. intros _ w.
      destruct (fxRates w (now w)); apply confined_refl.
    + intros e. apply touches_bind; [apply touches_emit|intros; apply touches_throw].
  - intros rates. unfold member.
    apply touches_bind; [destruct rates; (apply touches_ret || apply touches_throw)|].
    intros ?. apply touches_bind; [destruct rates; (apply touches_ret || apply touches_throw)|].
    intros ?. apply touches_ret.
Qed.

End Confinement.

Lemma lock_key_is_not_rates_key key : LOCK_key key ≠ CURRENCY_RATES_key.
Proof. cbv [LOCK_key CURRENCY_RATES_key REDIX_PREFIX]. cbn. discriminate. Qed.

(** ** The transaction workflow: conflict, success, failed insert *)

Lemma acquireLock_contended key w :
  quiet 3 (redis_faults w) ->
  (forall i, (i < 3)%nat -> held_at key w i) ->
  exists w',
    acquireLock key None None w = (Return None, w')
    /\ redis w' = redis w
    /\ transactions w' = transactions w
    /\ now w' = now w + 3 * DEFAULT_RETRY_DELAY
    /\ trace w'
       = warn_exhausted key 3
         :: backoff_trace (SET_PX_NX (LOCK_key key) (entropy w (drawn w)) LOCK_expiry) 3
         ++ trace w.
Proof.
  intros Hq Hheld.
  destruct (while_contended key (LOCK_key key) (entropy w (drawn w)) LOCK_expiry 3
              (set_drawn (S (drawn w)) w) ltac:(reflexivity) Hq Hheld)
    as (w1 & Hw & Hr & Hn & Htr & _ & _ & Htx).
  eexists. split.
  - unfold acquireLock, bind, randomUUID. cbn [default].
    change (Z.to_nat DEFAULT_RETRY_COUNT) with 3%nat. rewrite Hw. reflexivity.
  - cbn [redis transactions now trace set_trace]. rewrite Hr, Hn, Htr, Htx.
    cbn. repeat split.
Qed.

Lemma create_run data w :
  TransactionRepository.castable data = true ->
  head (mongo_faults w) ≠ Some true ->
  let doc := document (entropy w (drawn w)) (now w) data in
  TransactionRepository.create data w
  = (Return doc,
     set_transactions (transactions w ++ [doc])
       (mongo_sent (MongoCreate doc) (set_drawn (S (drawn w)) w))).
Proof.
  intros Hc Hf doc. unfold TransactionRepository.create, bind, randomUUID.
  rewrite Hc. cbn [now set_drawn]. rewrite mongo_send_run by exact Hf. reflexivity.
Qed.

Lemma create_fault data w :
  TransactionRepository.castable data = true ->
  head (mongo_faults w) = Some true ->
  TransactionRepository.create data w
  = (Throw MongoError,
     mongo_sent (MongoCreate (document (entropy w (drawn w)) (now w) data))
       (set_drawn (S (drawn w)) w)).
Proof.
  intros Hc Hf. unfold TransactionRepository.create, bind, randomUUID, mongo_send, emit.
  rewrite Hc. cbn. destruct (decide _) as [E|E]; [reflexivity|contradiction].
Qed.

Lemma create_refused data w :
  TransactionRepository.castable data = false ->
  TransactionRepository.create data w
  = (Throw (ValidationError "Transaction validation failed"),
     set_drawn (S (drawn w)) w).
Proof.
  intros Hc. unfold TransactionRepository.create, bind, randomUUID. rewrite Hc.
  reflexivity.
Qed.

Lemma castable_data_of user dto createdBy a :
  TransactionRepository.castable (data_of user dto createdBy a)
  = negb (is_nan (dto_amount dto)) && negb (is_nan a).
Proof. reflexivity. Qed.

(** The returned expression, by cases: inserted, rejected by the
    database, refused by the schema. *)
Lemma insert_of_cases user dto a w :
  let n := drawn_with user (drawn w) in
  let doc := document (entropy w n) (now w)
               (data_of user dto (createdBy_of user w (drawn w)) a) in
  (is_nan (dto_amount dto) = false -> is_nan a = false ->
   (head (mongo_faults w) ≠ Some true ->
    insert_of user dto a w
    = (Return doc,
       set_transactions (transactions w ++ [doc])
         (mongo_sent (MongoCreate doc) (set_drawn (S n) w))))
   /\ (head (mongo_faults w) = Some true ->
       insert_of user dto a w
       = (Throw MongoError, mongo_sent (MongoCreate doc) (set_drawn (S n) w))))
  /\ (is_nan (dto_amount dto) = true \/ is_nan a = true ->
      insert_of user dto a w
      = (Throw (ValidationError "Transaction validation failed"),
         set_drawn (S n) w)).
Proof.
  intros n doc. subst n doc. unfold insert_of, createdBy_of, drawn_with, new_ObjectId.
  destruct (user_id user) as [u|]; unfold bind, randomUUID, ret; cbn [default].
  - split.
    + intros Ha Hb.
      assert (Hc : TransactionRepository.castable (data_of user dto u a) = true)
        by (rewrite castable_data_of, Ha, Hb; reflexivity).
      split; intros Hf.
      * rewrite create_run by assumption. reflexivity.
      * rewrite create_fault by assumption. reflexivity.
    + intros Hnan. apply create_refused. rewrite castable_data_of.
      destruct Hnan as [-> | ->]; [reflexivity|apply andb_false_r].
  - split.
    + intros Ha Hb.
      assert (Hc : TransactionRepository.castable
                     (data_of user dto (entropy w (drawn w)) a) = true)
        by (rewrite castable_data_of, Ha, Hb; reflexivity).
      split; intros Hf.
      * rewrite create_run by assumption. reflexivity.
      * rewrite create_fault by assumption. reflexivity.
    + intros Hnan. rewrite create_refused; [reflexivity|]. rewrite castable_data_of.
      destruct Hnan as [-> | ->]; [reflexivity|apply andb_false_r].
Qed.

Section Workflow.
Context {rt : Runtime}.
Import TransactionService.

(** X13.  When the store's lock stays held through all three attempts,
    [createTransaction] fails with Conflict after 600 ms: no rate lookup
    and no insert took place, no release was sent (the newcomer never
    deletes the holder's lock), and the collection and the keyspace are
    as they were. *)
Theorem createTransaction_conflict user dto w :
  quiet 3 (redis_faults w) ->
  (forall i, (i < 3)%nat -> held_at (lockKey_of user) w i) ->
  exists w',
    createTransaction user dto w
    = (Throw (ConflictException "A transaction is already in progress"), w')
    /\ transactions w' = transactions w
    /\ redis w' = redis w
    /\ now w' = now w + 600
    /\ trace w'
       = warn_exhausted (lockKey_of user) 3
         :: backoff_trace (SET_PX_NX (LOCK_key (lockKey_of user))
                             (entropy w (drawn w)) LOCK_expiry) 3
         ++ trace w.
Proof.
  intros Hq Hheld.
  destruct (acquireLock_contended (lockKey_of user) w Hq Hheld)
    as (w' & Ha & Hr & Htx & Hn & Htr).
  exists w'. split; [|repeat split; assumption].
  unfold createTransaction. fold (lockKey_of user). unfold bind at 1.
  rewrite Ha. reflexivity.
Qed.

(** What [createTransaction] comes to once the lock was free at the
    first attempt and the conversion has returned: the returned
    expression, run in the world in which the lock has been released. *)
Lemma createTransaction_unfold user dto w a w2 :
  let key := lockKey_of user in
  let token := entropy w (drawn w) in
  live (now w) (redis w) (LOCK_key key) = None ->
  head (redis_faults w) ≠ Some true ->
  token ≠ EmptyString ->
  convertToINR (dto_amount dto) (dto_currency dto) (acquired key LOCK_expiry w)
  = (Return a, w2) ->
  head (redis_faults w2) ≠ Some true ->
  createTransaction user dto w = insert_of user dto a (released key token w2)
  /\ live (now (released key token w2)) (redis (released key token w2)) (LOCK_key key)
     = None
  /\ now (released key token w2) = now w
  /\ transactions (released key token w2) = transactions w
  /\ mongo_faults (released key token w2) = mongo_faults w
  /\ entropy (released key token w2) = entropy w
  /\ drawn (released key token w2) = S (drawn w).
Proof.
  intros key token Hl Hf Htok Hconv Hf2.
  pose proof (touches_convertToINR (dto_amount dto) (dto_currency dto)
                (acquired key LOCK_expiry w)) as Hc.
  rewrite Hconv in Hc. cbn [snd] in Hc.
  destruct Hc as (Hn & Htx & Hmf & _ & Hen & Hdr & Hrd).
  assert (Hlive : live (now w2) (redis w2) (LOCK_key key)
                  = Some {| value := token; expireAt := Some (now w + LOCK_expiry) |}).
  { unfold live. rewrite Hrd by apply lock_key_is_not_rates_key. rewrite Hn.
    apply (live_acquired key LOCK_expiry w). reflexivity. }
  split.
  - unfold createTransaction. fold (lockKey_of user). fold key. unfold bind at 1.
    rewrite (acquireLock_free key None None w) by (reflexivity || assumption).
    change (default LOCK_expiry None) with LOCK_expiry.
    fold token. cbn [truthy_str].
    destruct (String.eqb_spec token EmptyString); [contradiction|]. cbn [negb].
    unfold try_return_finally. rewrite Hconv.
    rewrite (releaseLock_own key token w2 _ Hf2 Hlive) by reflexivity.
    reflexivity.
  - split; [|repeat split; cbn; assumption].
    unfold live. cbn. rewrite lookup_delete_eq. reflexivity.
Qed.

(** C3.  The release does not wait for the insert.  Once the lock has
    been acquired and the conversion has returned, the release command
    is sent and the lock deleted while the collection is still as it
    was; the insert is the last operation of the call, made when the
    store's lock is free again, whether the database then accepts the
    document or rejects it.  (The [try] block returns the promise of
    [create] without awaiting it, so the [finally] block runs first.)  *)
Theorem createTransaction_releases_before_insert user dto w a w2 :
  let key := lockKey_of user in
  let token := entropy w (drawn w) in
  live (now w) (redis w) (LOCK_key key) = None ->
  head (redis_faults w) ≠ Some true ->
  token ≠ EmptyString ->
  convertToINR (dto_amount dto) (dto_currency dto) (acquired key LOCK_expiry w)
  = (Return a, w2) ->
  head (redis_faults w2) ≠ Some true ->
  is_nan (dto_amount dto) = false -> is_nan a = false ->
  let w3 := released key token w2 in
  exists doc,
    let w' := snd (createTransaction user dto w) in
    trace w3 = Log debug ("Lock released for key: " +:+ key)
               :: Redis (EVAL_RELEASE (LOCK_key key) token) :: trace w2
    /\ transactions w3 = transactions w
    /\ live (now w3) (redis w3) (LOCK_key key) = None
    /\ trace w' = MongoCreate doc :: trace w3
    /\ (head (mongo_faults w) ≠ Some true ->
        fst (createTransaction user dto w) = Return doc
        /\ transactions w' = transactions w ++ [doc])
    /\ (head (mongo_faults w) = Some true ->
        fst (createTransaction user dto w) = Throw MongoError
        /\ transactions w' = transactions w).
Proof.
  intros key token Hl Hf Htok Hconv Hf2 Ha Hb w3.
  destruct (createTransaction_unfold user dto w a w2 Hl Hf Htok Hconv Hf2)
    as (Hct & Hfree & Hn & Htx & Hmf & Hen & Hdr).
  fold key token in Hct, Hfree, Hn, Htx, Hmf, Hen, Hdr. fold w3 in Hct, Hfree, Htx, Hmf.
  destruct (insert_of_cases user dto a w3) as [Hvalid _].
  destruct (Hvalid Ha Hb) as [Hok Hbad].
  exists (document (entropy w3 (drawn_with user (drawn w3))) (now w3)
            (data_of user dto (createdBy_of user w3 (drawn w3)) a)).
  cbn zeta. rewrite Hct.
  split; [reflexivity|]. split; [exact Htx|]. split; [exact Hfree|].
  destruct (decide (head (mongo_faults w) = Some true)) as [Hm|Hm].
  - rewrite Hbad by (rewrite Hmf; exact Hm). cbn [fst snd].
    split; [reflexivity|]. split; [intros; contradiction|].
    intros _. split; [reflexivity|exact Htx].
  - rewrite Hok by (rewrite Hmf; exact Hm). cbn [fst snd].
    split; [reflexivity|]. split; [|intros; contradiction].
    intros _. split; [reflexivity|]. rewrite <- Htx. reflexivity.
Qed.

(** X14.  On the success path exactly one document is appended to the
    collection and returned: it carries the request's amount,
    description, type and currency, the caller's store id, the amount in
    INR that the conversion step yielded, the current time as
    [createdAt] and, as [createdBy], the user's [_id] or, when the user
    object has none, a freshly generated id; the documents already stored
    are untouched, and the store's lock is free again when the call
    completes.  Both amounts are numbers that the schema accepts, that
    is, not NaN. *)
Theorem createTransaction_persists user dto w a w2 :
  let key := lockKey_of user in
  let token := entropy w (drawn w) in
  live (now w) (redis w) (LOCK_key key) = None ->
  head (redis_faults w) ≠ Some true ->
  token ≠ EmptyString ->
  convertToINR (dto_amount dto) (dto_currency dto) (acquired key LOCK_expiry w)
  = (Return a, w2) ->
  head (redis_faults w2) ≠ Some true ->
  is_nan (dto_amount dto) = false -> is_nan a = false ->
  head (mongo_faults w) ≠ Some true ->
  let doc := {| _id := entropy w (match user_id user with
                                  | Some _ => S (drawn w)
                                  | None => S (S (drawn w))
                                  end);
                storeId := user_storeId user;
                amount := dto_amount dto;
                description := dto_description dto;
                type := dto_type dto;
                currency := dto_currency dto;
                amountInINR := a;
                createdBy := match user_id user with
                             | Some id => id
                             | None => entropy w (S (drawn w))
                             end;
                createdAt := now w |} in
  exists w',
    createTransaction user dto w = (Return doc, w')
    /\ transactions w' = transactions w ++ [doc]
    /\ live (now w') (redis w') (LOCK_key key) = None.
Proof.
  intros key token Hl Hf Htok Hconv Hf2 Ha Hb Hm doc.
  destruct (createTransaction_unfold user dto w a w2 Hl Hf Htok Hconv Hf2)
    as (Hct & Hfree & Hn & Htx & Hmf & Hen & Hdr).
  fold key token in Hct, Hfree, Hn, Htx, Hmf, Hen, Hdr.
  destruct (insert_of_cases user dto a (released key token w2)) as [Hvalid _].
  destruct (Hvalid Ha Hb) as [Hok _].
  rewrite Hct, Hok by (rewrite Hmf; exact Hm).
  set (w3 := released key token w2) in *.
  assert (Hdoc : document (entropy w3 (drawn_with user (drawn w3))) (now w3)
                   (data_of user dto (createdBy_of user w3 (drawn w3)) a) = doc).
  { unfold createdBy_of, drawn_with. rewrite Hn, Hen, Hdr. subst doc.
    destruct (user_id user); reflexivity. }
  rewrite Hdoc. eexists. split; [reflexivity|].
  split; [rewrite <- Htx; reflexivity|exact Hfree].
Qed.

(** X15.  When the insert fails, [createTransaction] fails with the
    error of the insert, the collection is as it was, and the store's
    lock has been released all the same: the next request is not blocked
    until the lock expires.  A document that the schema accepts and the
    database rejects fails with the database's error; a document with an
    amount that is NaN is refused with a ValidationError and no insert
    is sent. *)
Theorem createTransaction_insert_fails user dto w a w2 :
  let key := lockKey_of user in
  let token := entropy w (drawn w) in
  live (now w) (redis w) (LOCK_key key) = None ->
  head (redis_faults w) ≠ Some true ->
  token ≠ EmptyString ->
  convertToINR (dto_amount dto) (dto_currency dto) (acquired key LOCK_expiry w)
  = (Return a, w2) ->
  head (redis_faults w2) ≠ Some true ->
  (is_nan (dto_amount dto) = false -> is_nan a = false ->
   head (mongo_faults w) = Some true ->
   exists w',
     createTransaction user dto w = (Throw MongoError, w')
     /\ transactions w' = transactions w
     /\ live (now w') (redis w') (LOCK_key key) = None)
  /\ (is_nan (dto_amount dto) = true \/ is_nan a = true ->
      exists w',
        createTransaction user dto w
        = (Throw (ValidationError "Transaction validation failed"), w')
        /\ transactions w' = transactions w
        /\ live (now w') (redis w') (LOCK_key key) = None
        /\ trace w' = Log debug ("Lock released for key: " +:+ key)
                      :: Redis (EVAL_RELEASE (LOCK_key key) token) :: trace w2).
Proof.
  intros key token Hl Hf Htok Hconv Hf2.
  destruct (createTransaction_unfold user dto w a w2 Hl Hf Htok Hconv Hf2)
    as (Hct & Hfree & Hn & Htx & Hmf & _).
  fold key token in Hct, Hfree, Hn, Htx, Hmf.
  destruct (insert_of_cases user dto a (released key token w2)) as [Hvalid Hrefused].
  split.
  - intros Ha Hb Hm. destruct (Hvalid Ha Hb) as [_ Hbad].
    rewrite Hct, Hbad by (rewrite Hmf; exact Hm).
    eexists. split; [reflexivity|]. split; [exact Htx|exact Hfree].
  - intros Hnan. rewrite Hct, (Hrefused Hnan).
    eexists. split; [reflexivity|]. split; [exact Htx|]. split; [exact Hfree|reflexivity].
Qed.

End Workflow.

Lemma createTransaction_conflict_witness :
  exists w',
    TransactionService.createTransaction (rt:=literal_runtime) sample_user
      (sample_dto "USD") w_held
    = (Throw (ConflictException "A transaction is already in progress"), w')
    /\ transactions w' = transactions w_held
    /\ redis w' = redis w_held.
Proof.
  destruct (createTransaction_conflict (rt:=literal_runtime) sample_user
              (sample_dto "USD") w_held)
    as (w' & H1 & H2 & H3 & _).
  - constructor.
  - intros i Hi.
    destruct i as [|[|[|i]]]; [vm_compute; eauto..|lia].
  - exists w'. split; [exact H1|]. split; [exact H2|exact H3].
Defined.

(** 2 USD at 83 INR to the dollar: the release is the last command to
    Redis, the insert of the 166 INR follows it. *)
Lemma createTransaction_releases_before_insert_witness :
  fst (TransactionService.createTransaction (rt:=literal_runtime) sample_user
         (sample_dto "USD") w_idle)
  = Return {| _id := "uuid-1"; storeId := "S"; amount := 2%float;
              description := None; type := CREDIT; currency := "USD";
              amountInINR := 166%float; createdBy := "u";
              createdAt := 1704499200000 |}
  /\ List.filter (fun e => is_eval e || is_create e)
       (trace (snd (TransactionService.createTransaction (rt:=literal_runtime)
                      sample_user (sample_dto "USD") w_idle)))
     = [MongoCreate {| _id := "uuid-1"; storeId := "S"; amount := 2%float;
                       description := None; type := CREDIT; currency := "USD";
                       amountInINR := 166%float; createdBy := "u";
                       createdAt := 1704499200000 |};
        Redis (EVAL_RELEASE (LOCK_key "transaction:S") "uuid-0")].
Proof.
  destruct (createTransaction_releases_before_insert (rt:=literal_runtime) sample_user
              (sample_dto "USD") w_idle 166%float
              (snd (TransactionService.convertToINR (rt:=literal_runtime) 2%float "USD"
                      (acquired "transaction:S" LOCK_expiry w_idle))))
    as (doc & _ & _ & _ & Htr & Hok & _).
  - reflexivity.
  - vm_compute. discriminate.
  - vm_compute. discriminate.
  - vm_compute. reflexivity.
  - vm_compute. discriminate.
  - reflexivity.
  - reflexivity.
  - destruct Hok as [Hres _]; [vm_compute; discriminate|].
    assert (Hd : Return doc
                 = Return {| _id := "uuid-1"; storeId := "S"; amount := 2%float;
                             description := None; type := CREDIT; currency := "USD";
                             amountInINR := 166%float; createdBy := "u";
                             createdAt := 1704499200000 |})
      by (rewrite <- Hres; vm_compute; reflexivity).
    injection Hd as ->. split; [exact Hres|].
    cbn zeta in Htr. rewrite Htr. vm_compute. reflexivity.
Defined.

(** 2 USD at 83 INR to the dollar are stored as 166 INR; a user object
    without [_id] is recorded under a fresh id. *)
Lemma createTransaction_persists_witness :
  (exists doc w',
     TransactionService.createTransaction (rt:=literal_runtime) sample_user
       (sample_dto "USD") w_idle = (Return doc, w')
     /\ amountInINR doc = 166%float
     /\ createdBy doc = "u"
     /\ transactions w' = transactions w_idle ++ [doc])
  /\ (exists doc w',
        TransactionService.createTransaction (rt:=literal_runtime) jwt_user
          (sample_dto "INR") w_idle = (Return doc, w')
        /\ createdBy doc = "uuid-1"
        /\ _id doc = "uuid-2").
Proof.
  split.
  - destruct (createTransaction_persists (rt:=literal_runtime) sample_user
                (sample_dto "USD") w_idle 166%float
                (snd (TransactionService.convertToINR (rt:=literal_runtime) 2%float "USD"
                        (acquired "transaction:S" LOCK_expiry w_idle))))
      as (w' & H1 & H2 & _).
    + reflexivity.
    + vm_compute. discriminate.
    + vm_compute. discriminate.
    + vm_compute. reflexivity.
    + vm_compute. discriminate.
    + reflexivity.
    + reflexivity.
    + vm_compute. discriminate.
    + eexists _, w'. split; [exact H1|]. split; [reflexivity|].
      split; [reflexivity|exact H2].
  - destruct (createTransaction_persists (rt:=literal_runtime) jwt_user
                (sample_dto "INR") w_idle 2%float
                (acquired "transaction:S" LOCK_expiry w_idle))
      as (w' & H1 & _).
    + reflexivity.
    + vm_compute. discriminate.
    + vm_compute. discriminate.
    + reflexivity.
    + vm_compute. discriminate.
    + reflexivity.
    + reflexivity.
    + vm_compute. discriminate.
    + eexists _, w'. split; [exact H1|]. split; vm_compute; reflexivity.
Defined.

(** The database rejects the insert of a valid document; the schema
    refuses the NaN that an unlisted currency converts to. *)
Lemma createTransaction_insert_fails_witness :
  (exists w',
     TransactionService.createTransaction (rt:=literal_runtime) sample_user
       (sample_dto "INR") (set_mongo_faults [true] w_idle) = (Throw MongoError, w')
     /\ transactions w' = transactions w_idle)
  /\ (exists w',
        TransactionService.createTransaction (rt:=literal_runtime) sample_user
          (sample_dto "EUR") w_idle
        = (Throw (ValidationError "Transaction validation failed"), w')
        /\ transactions w' = transactions w_idle).
Proof.
  split.
  - destruct (createTransaction_insert_fails (rt:=literal_runtime) sample_user
                (sample_dto "INR") (set_mongo_faults [true] w_idle) 2%float
                (acquired "transaction:S" LOCK_expiry (set_mongo_faults [true] w_idle)))
      as [Hdb _].
    + reflexivity.
    + vm_compute. discriminate.
    + vm_compute. discriminate.
    + reflexivity.
    + vm_compute. discriminate.
    + destruct Hdb as (w' & H1 & H2 & _); [reflexivity..|].
      exists w'. split; [exact H1|exact H2].
  - destruct (createTransaction_insert_fails (rt:=literal_runtime) sample_user
                (sample_dto "EUR") w_idle nan
                (snd (TransactionService.convertToINR (rt:=literal_runtime) 2%float "EUR"
                        (acquired "transaction:S" LOCK_expiry w_idle))))
      as [_ Hnan].
    + reflexivity.
    + vm_compute. discriminate.
    + vm_compute. discriminate.
    + vm_compute. reflexivity.
    + vm_compute. discriminate.
    + destruct Hnan as (w' & H1 & H2 & _); [right; reflexivity|].
      exists w'. split; [exact H1|exact H2].
Defined.

(** ** Reports: counting, shape, failures and the default date *)

Lemma sumZ_perm l1 l2 : l1 ≡ₚ l2 -> sumZ l1 = sumZ l2.
Proof. induction 1; cbn; lia. Qed.

Lemma sumZ_pointwise {A} (f g h : A -> Z) (l : list A) :
  (forall x, f x = g x + h x) ->
  sumZ (map f l) = sumZ (map g l) + sumZ (map h l).
Proof. intros E. induction l as [|x l IH]; cbn; [reflexivity|]. rewrite E, IH. lia. Qed.

Lemma sumZ_ones {A} (l : list A) : sumZ (map (fun _ => 1) l) = Z.of_nat (length l).
Proof.
  induction l as [|x l IH]; cbn [map sumZ length]; [reflexivity|]. rewrite IH. lia.
Qed.

Section Partition.
Context {A K : Type} `{EqDecision K}.

Lemma sumZ_absent (k0 : K) (c : Z) (ks : list K) :
  ~ In k0 ks -> sumZ (map (fun k => if decide (k0 = k) then c else 0) ks) = 0.
Proof.
  induction ks as [|k ks IH]; cbn; intros Hin; [reflexivity|].
  rewrite decide_False by intuition congruence. rewrite IH by tauto. reflexivity.
Qed.

Lemma sumZ_single (k0 : K) (c : Z) (ks : list K) :
  List.NoDup ks -> In k0 ks ->
  sumZ (map (fun k => if decide (k0 = k) then c else 0) ks) = c.
Proof.
  induction 1 as [|k ks Hin Hnd IH]; cbn; [tauto|].
  intros [->|Hk].
  - rewrite decide_True by reflexivity. rewrite sumZ_absent by assumption. lia.
  - rewrite decide_False by (intros ->; contradiction). rewrite IH by assumption. lia.
Qed.

(** Grouping is a partition: summing a weight class by class gives the
    sum over the whole input. *)
Lemma sumZ_classes (key : A -> K) (g : A -> Z) (ks : list K) (docs : list A) :
  List.NoDup ks -> (forall d, In d docs -> In (key d) ks) ->
  sumZ (map (fun k => sumZ (map g (List.filter (has_key key k) docs))) ks)
  = sumZ (map g docs).
Proof.
  intros Hnd. induction docs as [|d docs IH]; intros Hks.
  - cbn. clear Hnd Hks. induction ks as [|k ks IHk]; cbn; [reflexivity|].
    rewrite IHk. reflexivity.
  - cbn [map sumZ].
    rewrite <- IH by (intros d' Hd'; apply Hks; right; exact Hd').
    rewrite <- (sumZ_single (key d) (g d) ks Hnd) at 1
      by (apply Hks; left; reflexivity).
    apply (sumZ_pointwise _ (fun k => if decide (key d = k) then g d else 0)
             (fun k => sumZ (map g (List.filter (has_key key k) docs)))).
    intros k. cbn [List.filter]. unfold has_key at 1.
    destruct (decide (key d = k)) as [E|E].
    + rewrite bool_decide_eq_true_2 by assumption. reflexivity.
    + rewrite bool_decide_eq_false_2 by assumption. lia.
Qed.

Lemma sumZ_first_keys (key : A -> K) (g : A -> Z) (docs : list A) :
  sumZ (map (fun k => sumZ (map g (List.filter (has_key key k) docs)))
          (first_keys key docs))
  = sumZ (map g docs).
Proof.
  apply sumZ_classes; [apply NoDup_first_keys|].
  intros d Hd. apply In_first_keys. eauto.
Qed.

End Partition.

(** X16.  The two grouping stages lose and duplicate nothing: over all
    buckets and all their entries, the [count] fields add up to the
    number of transactions that the [$match] stage selected - every
    matched transaction is counted in exactly one entry. *)
Theorem report_counts_add_up storeId_ startDate_ endDate_ groupBy collection :
  counted (report_pipeline storeId_ startDate_ endDate_ groupBy collection)
  = Z.of_nat (length (List.filter (report_query storeId_ startDate_ endDate_)
                        collection)).
Proof.
  unfold counted, report_pipeline, stage_match.
  set (matched := List.filter _ collection).
  rewrite (sumZ_perm _ _ (Permutation_map _ (stage_sort_desc_perm _ _))).
  rewrite (stage_group_classes (fun d => (date_operator groupBy (createdAt d), type d))).
  set (key := fun d : Transaction => (date_operator groupBy (createdAt d), type d)).
  set (T := fun k : Z * TransactionType => _).
  rewrite (stage_group_classes (fun r => fst (pt_id r))).
  rewrite map_map. cbn [bucket_transactions].
  erewrite map_ext; [|intros p; rewrite map_map; cbn [tt_count]; reflexivity].
  rewrite (sumZ_first_keys (fun r => fst (pt_id r)) pt_count).
  rewrite map_map. subst T. cbn [pt_count]. unfold count_of.
  erewrite map_ext; [|intros k; rewrite <- sumZ_ones; reflexivity].
  rewrite (sumZ_first_keys key (fun _ => 1)). apply sumZ_ones.
Qed.

Lemma two_types (l : list TransactionType) : List.NoDup l -> (length l <= 2)%nat.
Proof.
  intros Hnd.
  destruct l as [|a [|b [|c l]]]; cbn; try lia.
  exfalso. inversion Hnd as [|? ? Ha Hnd1]; subst.
  inversion Hnd1 as [|? ? Hb _]; subst.
  cbn in Ha, Hb. destruct a, b, c; tauto.
Qed.

(** X17.  Shape of a bucket, for every grouping operator: a bucket has
    one or two entries, at most one per transaction type; its key is a
    weekday number 1..7 under [$dayOfWeek], a month number 1..12 under
    [$month], and the UTC year of some transaction of the collection
    under [$year]. *)
Theorem report_bucket_shape storeId_ startDate_ endDate_ groupBy collection b :
  In b (report_pipeline storeId_ startDate_ endDate_ groupBy collection) ->
  (1 <= length (bucket_transactions b) <= 2)%nat
  /\ List.NoDup (map tt_type (bucket_transactions b))
  /\ match groupBy with
     | op_dayOfWeek => 1 <= bucket_id b <= 7
     | op_month => 1 <= bucket_id b <= 12
     | op_year => exists d, In d collection /\ bucket_id b = YearFromTime (createdAt d)
     end.
Proof.
  intros Hb.
  destruct (report_pipeline_spec storeId_ startDate_ endDate_ groupBy collection)
    as (_ & _ & Hent & _).
  destruct (Hent b Hb) as (Hne & Hnd & Hmem).
  split; [|split; [exact Hnd|]].
  - pose proof (two_types _ Hnd) as H2. rewrite length_map in H2.
    destruct (bucket_transactions b) as [|e es]; [contradiction|cbn in *; lia].
  - destruct (bucket_transactions b) as [|e es] eqn:Eb; [congruence|].
    pose proof (Hmem e ltac:(left; reflexivity)) as Hm. cbn zeta in Hm.
    destruct Hm as (Hm & _).
    remember (List.filter (has_key (period_type groupBy) (bucket_id b, tt_type e))
                (List.filter (report_query storeId_ startDate_ endDate_) collection))
      as members eqn:Ef.
    destruct members as [|d ds]; [contradiction|].
    assert (Hd : In d (List.filter (has_key (period_type groupBy) (bucket_id b, tt_type e))
                   (List.filter (report_query storeId_ startDate_ endDate_) collection))).
    { rewrite <- Ef. left. reflexivity. }
    apply List.filter_In in Hd as [Hd Hk].
    apply List.filter_In in Hd as [Hd _].
    unfold has_key in Hk. apply bool_decide_eq_true_1 in Hk.
    unfold period_type in Hk. injection Hk as Hk _.
    destruct groupBy.
    + rewrite <- Hk. apply dayOfWeek_range.
    + rewrite <- Hk. cbn. pose proof (MonthFromTime_range (createdAt d)). lia.
    + exists d. split; [exact Hd|]. rewrite <- Hk. reflexivity.
Qed.

(** January 2024 of store S by month: the bucket of month 1 holds a
    credit entry and a debit entry. *)
Lemma report_bucket_shape_witness :
  (1 <= length
          (bucket_transactions
             {| bucket_id := 1;
                bucket_transactions :=
                  [{| tt_type := CREDIT; tt_totalAmount := 100%float; tt_count := 1 |};
                   {| tt_type := DEBIT; tt_totalAmount := 40%float; tt_count := 1 |}] |})
   <= 2)%nat.
Proof.
  apply (report_bucket_shape "S" (Some 1704067200000) (Some 1706745600000) op_month
           (transactions w_idle)).
  vm_compute. left. reflexivity.
Defined.

Section ReportExtras.
Context {rt : Runtime}.

Lemma aggregate_fault {R} (pipeline : list Transaction -> list R) w :
  head (mongo_faults w) = Some true ->
  aggregate pipeline w = (Throw MongoError, mongo_sent MongoAggregate w).
Proof.
  intros Hf. unfold aggregate, mongo_send, bind, emit. cbn.
  destruct (decide _) as [E|E]; [reflexivity|contradiction].
Qed.

(** X18.  A report is empty exactly when no transaction of the store
    lies in its window: then, and only then, [transactions] is the empty
    list and [summary] is the all-zero literal (the only summary that
    has a [netFlow]). *)
Theorem generateReport_empty_iff storeId_ durationType startDate_ groupBy w :
  quiet 2 (mongo_faults w) ->
  exists report w',
    generateReport storeId_ durationType startDate_ groupBy w = (Return report, w')
    /\ let matched :=
         List.filter (report_query storeId_ startDate_ (endDate report))
           (transactions w) in
       (report_transactions report = [] <-> matched = [])
       /\ (summary report = summary_fallback <-> matched = []).
Proof.
  intros Hq.
  destruct (generateReport_run storeId_ durationType startDate_ groupBy w Hq)
    as (report & w' & Hrun & _ & _ & Hb & Hs & _).
  exists report, w'. split; [exact Hrun|]. cbn zeta. split.
  - rewrite Hb. split.
    + intros He.
      destruct (report_pipeline_spec storeId_ startDate_ (endDate report)
                  (default op_dayOfWeek groupBy) (transactions w)) as (_ & _ & _ & Hall).
      rewrite He in Hall.
      destruct (List.filter _ _) as [|d ds]; [reflexivity|].
      destruct (Hall d ltac:(left; reflexivity)) as (b & _ & [] & _).
    + intros He. unfold report_pipeline, stage_match. rewrite He. reflexivity.
  - rewrite Hs. destruct (List.filter _ _) as [|d ds].
    + split; reflexivity.
    + split; [|discriminate]. unfold summary_row, summary_fallback. discriminate.
Qed.

(** X19.  [generateReport] only reads: whatever the database does, the
    collection, the keyspace and the clock are as before, and the only
    operations are one or two aggregations.  It throws the database's
    error exactly when one of its two aggregations fails - there is no
    partial report - and when the first one fails the summary is not
    asked for. *)
Theorem generateReport_reads_only storeId_ durationType startDate_ groupBy w :
  let result := generateReport storeId_ durationType startDate_ groupBy w in
  transactions (snd result) = transactions w
  /\ redis (snd result) = redis w
  /\ now (snd result) = now w
  /\ (trace (snd result) = MongoAggregate :: trace w
      \/ trace (snd result) = MongoAggregate :: MongoAggregate :: trace w)
  /\ (fst result = Throw MongoError <-> ~ quiet 2 (mongo_faults w))
  /\ (head (mongo_faults w) = Some true ->
      trace (snd result) = MongoAggregate :: trace w).
Proof.
  cbn zeta.
  destruct (decide (head (mongo_faults w) = Some true)) as [H1|H1].
  - assert (Hnq : ~ quiet 2 (mongo_faults w)).
    { intros Hq. apply quiet_S in Hq as [Hq _]. contradiction. }
    unfold generateReport, bind. rewrite aggregate_fault by exact H1. cbn.
    repeat split; auto.
  - unfold generateReport, bind. rewrite aggregate_run by exact H1.
    unfold calculateSummary, bind.
    set (w1 := mongo_sent MongoAggregate w).
    assert (Hf1 : mongo_faults w1 = tail (mongo_faults w)) by reflexivity.
    destruct (decide (head (mongo_faults w1) = Some true)) as [H2|H2].
    + assert (Hnq : ~ quiet 2 (mongo_faults w)).
      { intros Hq. apply quiet_S in Hq as [_ Hq]. apply quiet_S in Hq as [Hq _].
        rewrite Hf1 in H2. contradiction. }
      rewrite aggregate_fault by exact H2. cbn.
      repeat split; auto. intros; contradiction.
    + assert (Hq : quiet 2 (mongo_faults w)).
      { rewrite Hf1 in H2. unfold quiet.
        destruct (mongo_faults w) as [|[|] [|[|] rest]]; cbn in *;
          try congruence; repeat constructor. }
      rewrite aggregate_run by exact H2. cbn.
      match goal with
      | |- context [match ?l with [] => _ | _ :: _ => _ end] =>
          destruct l as [|r rs]
      end; cbn; (repeat split; auto; [discriminate|intros; contradiction..]).
Qed.

Import TransactionController.

Lemma report_from_now storeId_ durationType w :
  Z.abs (now w) <= maxTime ->
  quiet 2 (mongo_faults w) ->
  (forall d, In d (transactions w) -> createdAt d < now w) ->
  exists report w',
    generateReport storeId_ durationType (Some (now w)) None w = (Return report, w')
    /\ startDate report = Some (now w)
    /\ report_transactions report = []
    /\ summary report = summary_fallback.
Proof.
  intros Hn Hq Hpast.
  destruct (generateReport_run storeId_ durationType (Some (now w)) None w Hq)
    as (report & w' & Hrun & Hs & _ & Hb & Hsum & _).
  assert (Hnone : List.filter (report_query storeId_ (Some (now w)) (endDate report))
                    (transactions w) = []).
  { apply filter_none. intros d Hd. unfold report_query.
    change (bson_date (Some (now w))) with (now w).
    specialize (Hpast d Hd).
    destruct (Z.leb_spec (now w) (createdAt d)); [lia|].
    rewrite andb_false_r. reflexivity. }
  exists report, w'. split; [exact Hrun|]. split; [exact Hs|]. split.
  - rewrite Hb. unfold report_pipeline, stage_match. rewrite Hnone. reflexivity.
  - rewrite Hsum, Hnone. reflexivity.
Qed.

(** X20.  Without a [date] query parameter (absent or empty) the weekly
    and monthly endpoints report on the period that starts at the moment
    of the request: transactions created before the request are never
    included, so over a collection of past transactions both reports
    are empty, with the all-zero summary. *)
Theorem reports_without_date_start_now user date w :
  date = None \/ date = Some EmptyString ->
  Z.abs (now w) <= maxTime ->
  quiet 2 (mongo_faults w) ->
  (forall d, In d (transactions w) -> createdAt d < now w) ->
  (exists report w',
     getWeeklyReport user date w = (Return report, w')
     /\ startDate report = Some (now w)
     /\ report_transactions report = []
     /\ summary report = summary_fallback)
  /\ (exists report w',
        getMonthlyReport user date w = (Return report, w')
        /\ startDate report = Some (now w)
        /\ report_transactions report = []
        /\ summary report = summary_fallback).
Proof.
  intros Hd Hn Hq Hpast.
  assert (Hreq : request_date date w = (Return (Some (now w)), w)).
  { unfold request_date, TimeClip.
    destruct Hd as [-> | ->]; cbn;
      (destruct (Z.leb_spec (Z.abs (now w)) 8640000000000000);
       [reflexivity|unfold maxTime in Hn; lia]). }
  split.
  - unfold getWeeklyReport, bind. rewrite Hreq.
    apply report_from_now; assumption.
  - unfold getMonthlyReport, bind. rewrite Hreq.
    apply report_from_now; assumption.
Qed.

End ReportExtras.

(** Store T has no transactions. *)
Lemma generateReport_empty_iff_witness :
  exists report w',
    generateReport (rt:=literal_runtime) "T" week (Some 1704067200000) None w_idle
    = (Return report, w')
    /\ report_transactions report = []
    /\ summary report = summary_fallback.
Proof.
  destruct (generateReport_empty_iff (rt:=literal_runtime) "T" week
              (Some 1704067200000) None w_idle)
    as (report & w' & Hrun & Hb & Hs); [constructor|].
  assert (Hnone : List.filter (report_query "T" (Some 1704067200000) (endDate report))
                    (transactions w_idle) = []).
  { apply filter_none. intros d [<-|[<-|[]]]; reflexivity. }
  exists report, w'. split; [exact Hrun|].
  split; [apply Hb, Hnone|apply Hs, Hnone].
Defined.

(** Asked on 2024-01-06 without a date, the weekly report of store S
    leaves out the transactions of 2024-01-01 and 2024-01-03. *)
Lemma reports_without_date_start_now_witness :
  exists report w',
    TransactionController.getWeeklyReport (rt:=literal_runtime) sample_user None w_idle
    = (Return report, w')
    /\ report_transactions report = [].
Proof.
  destruct (reports_without_date_start_now (rt:=literal_runtime) sample_user None
              w_idle)
    as [(report & w' & Hrun & _ & Hb & _) _].
  - left. reflexivity.
  - vm_compute. discriminate.
  - constructor.
  - intros d [<-|[<-|[]]]; reflexivity.
  - exists report, w'. split; [exact Hrun|exact Hb].
Defined.
